(** * nocmodel: the code-generation base model ([noc_codegen_base.py])

    A shallow embedding of class [noc_codegen_base]: the dictionaries that
    describe generics, ports and signals, the three find-or-create methods
    [add_generic], [add_port] and [add_external_signal], the implementation
    delegate [build_implementation] and the interface hash [model_hash].

    The module is Python 2 ([filter] returns a list, [str] is a byte
    string).  Every method is a function from the object to the object it
    leaves and the way the call ends, a returned value or a raised
    exception, so that a failure half-way through a body shows the writes
    already done.

    Objects are modelled by value: a method that returns a reference to a
    dictionary returns here the dictionary as it stands when the method
    ends, and an in-place update of a list element is a replacement at its
    index.  [add_port] stores the caller's [signal_desc] object itself in
    the signal list; what a caller does to that object afterwards, outside
    the three methods, is not followed.

    The stubs that raise NotImplementedError, the optional keyword
    arguments of the constructor and class [noc_codegen_ext] carry no
    behaviour that the statements below are about and are left out. *)

From Stdlib Require Import List String Ascii ZArith Bool Arith Lia.
From Stdlib Require Import DecimalString.
From Stdlib Require Import Permutation Sorted OrderedTypeEx.
Import ListNotations.
Open Scope string_scope.
Open Scope list_scope.

Set Warnings "-register-all".

(** ** Values *)

(** The Python values that reach the model: [None], [bool], [int], myhdl's
    [intbv] (its integer value and its number of bits, 0 when unsized),
    [str], lists, and dictionaries keyed by strings (every key the module
    reads or writes is a string literal or a keyword-argument name). *)
Inductive pyval : Type :=
| PNone
| PBool (b : bool)
| PInt (z : Z)
| PIntbv (z : Z) (nrbits : nat)
| PStr (s : string)
| PList (l : list pyval)
| PDict (d : list (string * pyval)).

Definition dict : Type := list (string * pyval).

(** Exceptions.  The four validation errors raised by the module itself
    carry the offending argument; the others are raised by the interpreter
    while the body runs, or inside code the module calls (myhdl, the code
    model). *)
Inductive exn : Type :=
| TypeError_name (name : pyval)
| TypeError_unsupported (value : pyval)
| TypeError_signal_desc (signal_desc : pyval)
| ValueError_direction (direction : pyval)
| KeyError (key : string)
| TypeError_builtin
| AttributeError (attr : string)
| Raised_by_callee (tag : string).

Inductive pyclass : Type := TypeError | ValueError | LookupError | AttrError | OtherError.

Definition exn_class (e : exn) : pyclass :=
  match e with
  | TypeError_name _ | TypeError_unsupported _ | TypeError_signal_desc _
  | TypeError_builtin => TypeError
  | ValueError_direction _ => ValueError
  | KeyError _ => LookupError
  | AttributeError _ => AttrError
  | Raised_by_callee _ => OtherError
  end.

(** The errors that come from the argument checks at the head of the three
    [add_*] methods. *)
Definition is_validation_error (e : exn) : bool :=
  match e with
  | TypeError_name _ | TypeError_unsupported _ | TypeError_signal_desc _
  | ValueError_direction _ => true
  | _ => false
  end.

Inductive result (A : Type) : Type :=
| Ret (a : A)
| Raise (e : exn).
Arguments Ret {A} a.
Arguments Raise {A} e.

Definition bind {A B : Type} (c : result A) (k : A -> result B) : result B :=
  match c with
  | Ret a => k a
  | Raise e => Raise e
  end.

Notation "x <- c ;; k" := (bind c (fun x => k))
  (at level 61, c at next level, right associativity).

Fixpoint mapM {A B : Type} (f : A -> result B) (l : list A) : result (list B) :=
  match l with
  | [] => Ret []
  | x :: l' => y <- f x ;; ys <- mapM f l' ;; Ret (y :: ys)
  end.

(** ** Dictionaries *)

Fixpoint dict_get (k : string) (d : dict) : option pyval :=
  match d with
  | [] => None
  | (k', v) :: d' => if String.eqb k k' then Some v else dict_get k d'
  end.

(** [d[k] = v]: overwrite the binding of [k], or add one. *)
Fixpoint dict_set (k : string) (v : pyval) (d : dict) : dict :=
  match d with
  | [] => [(k, v)]
  | (k', v') :: d' =>
      if String.eqb k k' then (k, v) :: d' else (k', v') :: dict_set k v d'
  end.

(** [d.update(other)] *)
Definition dict_update (d other : dict) : dict :=
  fold_right (fun kv acc => dict_set (fst kv) (snd kv) acc) d other.

Definition dict_has (k : string) (d : dict) : bool :=
  match dict_get k d with Some _ => true | None => false end.

(** ** Operators *)

(** [a == b].  Numbers compare by value across [bool], [int] and [intbv];
    strings, lists and dictionaries compare with their own kind only. *)
Definition num_of (v : pyval) : option Z :=
  match v with
  | PBool b => Some (if b then 1%Z else 0%Z)
  | PInt z | PIntbv z _ => Some z
  | _ => None
  end.

Fixpoint py_eq (a b : pyval) {struct a} : bool :=
  match a, b with
  | PNone, PNone => true
  | PStr s, PStr t => String.eqb s t
  | PList l, PList m =>
      (fix eq_list (l m : list pyval) {struct l} : bool :=
         match l, m with
         | [], [] => true
         | x :: l', y :: m' => py_eq x y && eq_list l' m'
         | _, _ => false
         end) l m
  | PDict d, PDict e =>
      Nat.eqb (List.length d) (List.length e) &&
      (fix eq_items (d : list (string * pyval)) {struct d} : bool :=
         match d with
         | [] => true
         | (k, v) :: d' =>
             match dict_get k e with
             | Some w => py_eq v w && eq_items d'
             | None => false
             end
         end) d
  | PBool x, _ =>
      match num_of b with Some z => Z.eqb (if x then 1 else 0) z | None => false end
  | PInt x, _ | PIntbv x _, _ =>
      match num_of b with Some z => Z.eqb x z | None => false end
  | _, _ => false
  end.

Definition py_ne (a b : pyval) : bool := negb (py_eq a b).

(** [isinstance(v, str)] *)
Definition isinstance_str (v : pyval) : bool :=
  match v with PStr _ => true | _ => false end.

(** [isinstance(v, (bool, int, intbv))] *)
Definition isinstance_bool_int_intbv (v : pyval) : bool :=
  match v with PBool _ | PInt _ | PIntbv _ _ => true | _ => false end.

(** [isinstance(v, (bool, int, intbv, str))] *)
Definition isinstance_bool_int_intbv_str (v : pyval) : bool :=
  isinstance_bool_int_intbv v || isinstance_str v.

(** [needle in haystack] on byte strings: substring test. *)
Definition str_contains (needle haystack : string) : bool :=
  match String.index 0 needle haystack with Some _ => true | None => false end.

(** [x in [a, b, ...]] on a list: some element equals [x]. *)
Definition list_contains (x : pyval) (l : list pyval) : bool :=
  existsb (fun y => py_eq y x) l.

(** ** What the interpreter and myhdl supply

    The string form of a value (["%s" % v]) and the order [list.sort]
    compares keys with are not defined by this module.  They are taken as
    an interface, of which the development uses two laws only: a [str]
    formats as itself and two [str] compare byte by byte. *)
Class PyRuntime : Type := {
  py_str : pyval -> string;
  py_lt : pyval -> pyval -> bool;
  py_str_str : forall s, py_str (PStr s) = s;
  py_lt_str : forall s t, py_lt (PStr s) (PStr t) = String.ltb s t
}.

Section Model.
Context {RT : PyRuntime}.

(** [x[k]] for a string key [k] *)
Definition getitem (x : pyval) (k : string) : result pyval :=
  match x with
  | PDict d =>
      match dict_get k d with
      | Some v => Ret v
      | None => Raise (KeyError k)
      end
  | PIntbv _ _ => Raise (Raised_by_callee "intbv.__getitem__")
  | _ => Raise TypeError_builtin
  end.

(** [iter(intbv)]: the bits from the most significant one down; an unsized
    [intbv] cannot be iterated. *)
Definition intbv_bits (z : Z) (nrbits : nat) : list pyval :=
  map (fun i => PBool (Z.testbit z (Z.of_nat i))) (rev (seq 0 nrbits)).

(** The elements a [for] loop or [filter] visits. *)
Definition py_iter (v : pyval) : result (list pyval) :=
  match v with
  | PList l => Ret l
  | PDict d => Ret (map (fun kv => PStr (fst kv)) d)
  | PStr s => Ret (map (fun c => PStr (String c EmptyString)) (list_ascii_of_string s))
  | PIntbv z 0 => Raise TypeError_builtin
  | PIntbv z n => Ret (intbv_bits z n)
  | _ => Raise TypeError_builtin
  end.

(** [len(v)] *)
Definition py_len (v : pyval) : result nat :=
  match v with
  | PList l => Ret (List.length l)
  | PDict d => Ret (List.length d)
  | PStr s => Ret (String.length s)
  | PIntbv _ n => Ret n
  | _ => Raise TypeError_builtin
  end.

(** [k in v] for a string [k] *)
Definition py_contains (k : string) (v : pyval) : result bool :=
  match v with
  | PDict d => Ret (dict_has k d)
  | PStr s => Ret (str_contains k s)
  | PNone | PBool _ | PInt _ => Raise TypeError_builtin
  | _ => l <- py_iter v ;; Ret (list_contains (PStr k) l)
  end.

(** [target.update(other)] *)
Definition py_update (target other : pyval) : result pyval :=
  match target with
  | PDict d =>
      match other with
      | PDict o => Ret (PDict (dict_update d o))
      | _ => Raise TypeError_builtin
      end
  | _ => Raise (AttributeError "update")
  end.

(** [filter(lambda x: x["name"] == key, l)], as the positions of the
    elements kept.  The lambda reads [x["name"]] first and the key second,
    for every element. *)
Fixpoint name_matches (key : result pyval) (l : list pyval) (i : nat)
  : result (list nat) :=
  match l with
  | [] => Ret []
  | x :: l' =>
      n <- getitem x "name" ;;
      k <- key ;;
      rest <- name_matches key l' (S i) ;;
      Ret (if py_eq n k then i :: rest else rest)
  end.

Fixpoint set_nth {A : Type} (i : nat) (x : A) (l : list A) : list A :=
  match l, i with
  | [], _ => []
  | _ :: l', O => x :: l'
  | y :: l', S i' => y :: set_nth i' x l'
  end.

(** ** The empty records and their copies *)

Definition _empty_generic : dict :=
  [("class", PStr "generic"); ("name", PStr ""); ("type", PStr "");
   ("type_array", PList [PNone; PNone]); ("default_value", PStr "");
   ("current_value", PStr ""); ("description", PStr "")].

Definition _empty_port : dict :=
  [("class", PStr "port"); ("name", PStr ""); ("type", PStr "");
   ("nocport", PNone); ("signal_list", PList []); ("description", PStr "")].

Definition _empty_signal : dict :=
  [("class", PStr "signal"); ("name", PStr ""); ("type", PStr "");
   ("type_array", PList [PNone; PNone]); ("direction", PStr "");
   ("default_value", PStr ""); ("related_generics", PList []);
   ("description", PStr "")].

Definition get_new_generic (kwargs : dict) : pyval :=
  PDict (dict_update _empty_generic kwargs).
Definition get_new_port (kwargs : dict) : pyval :=
  PDict (dict_update _empty_port kwargs).
Definition get_new_signal (kwargs : dict) : pyval :=
  PDict (dict_update _empty_signal kwargs).

(** ** The object *)

(** The [generate_implementation] attribute of a code model: some object
    that cannot be called, or a callable with what calling it gives. *)
Inductive attribute : Type :=
| not_callable (v : pyval)
| callable (call : result pyval).

Record codemodel_obj : Type := {
  generate_implementation : option attribute
}.

Record nocobject : Type := {
  codemodel : option codemodel_obj
}.

Record noc_codegen_base : Type := {
  nocobject_ref : nocobject;
  external_conversion : bool;
  docheader : pyval;
  libraries : pyval;
  modulename : pyval;
  generics : list pyval;
  ports : list pyval;
  external_signals : list pyval;
  implementation : pyval;
  interface_hash : pyval
}.

(** [noc_codegen_base(nocobject_ref)], without optional arguments. *)
Definition __init__ (ref : nocobject) : noc_codegen_base :=
  {| nocobject_ref := ref; external_conversion := false;
     docheader := PStr ""; libraries := PStr ""; modulename := PStr "";
     generics := []; ports := []; external_signals := [];
     implementation := PStr ""; interface_hash := PStr "" |}.

Definition set_generics (l : list pyval) (self : noc_codegen_base) :=
  {| nocobject_ref := nocobject_ref self;
     external_conversion := external_conversion self;
     docheader := docheader self; libraries := libraries self;
     modulename := modulename self;
     generics := l; ports := ports self;
     external_signals := external_signals self;
     implementation := implementation self;
     interface_hash := interface_hash self |}.

Definition set_ports (l : list pyval) (self : noc_codegen_base) :=
  {| nocobject_ref := nocobject_ref self;
     external_conversion := external_conversion self;
     docheader := docheader self; libraries := libraries self;
     modulename := modulename self;
     generics := generics self; ports := l;
     external_signals := external_signals self;
     implementation := implementation self;
     interface_hash := interface_hash self |}.

Definition set_external_signals (l : list pyval) (self : noc_codegen_base) :=
  {| nocobject_ref := nocobject_ref self;
     external_conversion := external_conversion self;
     docheader := docheader self; libraries := libraries self;
     modulename := modulename self;
     generics := generics self; ports := ports self;
     external_signals := l;
     implementation := implementation self;
     interface_hash := interface_hash self |}.

Definition set_implementation (v : pyval) (self : noc_codegen_base) :=
  {| nocobject_ref := nocobject_ref self;
     external_conversion := external_conversion self;
     docheader := docheader self; libraries := libraries self;
     modulename := modulename self;
     generics := generics self; ports := ports self;
     external_signals := external_signals self;
     implementation := v;
     interface_hash := interface_hash self |}.

Definition set_interface_hash (v : pyval) (self : noc_codegen_base) :=
  {| nocobject_ref := nocobject_ref self;
     external_conversion := external_conversion self;
     docheader := docheader self; libraries := libraries self;
     modulename := modulename self;
     generics := generics self; ports := ports self;
     external_signals := external_signals self;
     implementation := implementation self;
     interface_hash := v |}.

(** ** Find or create, then store back *)

(** [if len(g) == 0: g = new; l.append(g)  else: g = g[0]]: the list after
    the possible append, and the position of [g] in it. *)
Definition locate (found : list nat) (l : list pyval) (fresh : pyval)
  : list pyval * nat :=
  match found with
  | [] => (l ++ [fresh], List.length l)
  | i :: _ => (l, i)
  end.

(** The entry as the method body left it, and the exception that
    interrupted the body if there was one. *)
Definition outcome : Type := (pyval * option exn)%type.

Definition finish (o : outcome) : result pyval :=
  match snd o with
  | None => Ret (fst o)
  | Some e => Raise e
  end.

(** ** [add_generic] *)

Definition generic_body (value description : pyval) (kwargs : dict)
  (g : pyval) : outcome :=
  match py_update g (PDict [("default_value", value); ("description", description)]) with
  | Raise e => (g, Some e)
  | Ret g1 =>
      match py_update g1 (PDict kwargs) with
      | Raise e => (g1, Some e)
      | Ret g2 => (g2, None)
      end
  end.

Definition add_generic (name value description : pyval) (kwargs : dict)
  (self : noc_codegen_base) : noc_codegen_base * result pyval :=
  if negb (isinstance_str name) then (self, Raise (TypeError_name name))
  else if negb (isinstance_bool_int_intbv_str value)
  then (self, Raise (TypeError_unsupported value))
  else
    match name_matches (Ret name) (generics self) 0 with
    | Raise e => (self, Raise e)
    | Ret g =>
        let (l, i) := locate g (generics self) (get_new_generic [("name", name)]) in
        let o := generic_body value description kwargs (nth i l PNone) in
        (set_generics (set_nth i (fst o) l) self, finish o)
    end.

(** ** [add_port] *)

(** The checks on [signal_desc] when it is not [None]. *)
Definition check_signal_desc (signal_desc : pyval) : result unit :=
  match signal_desc with
  | PNone => Ret tt
  | _ =>
      has_class <- py_contains "class" signal_desc ;;
      has_name <- py_contains "name" signal_desc ;;
      if negb (has_class && has_name)
      then Raise (TypeError_signal_desc signal_desc)
      else
        c <- getitem signal_desc "class" ;;
        if py_ne c (PStr "signal")
        then Raise (TypeError_signal_desc signal_desc)
        else Ret tt
  end.

(** The list object under ["signal_list"] is changed in place: the port
    keeps its key and sees the new contents. *)
Definition with_signal_list (p : pyval) (l : list pyval) : pyval :=
  match p with
  | PDict d => PDict (dict_set "signal_list" (PList l) d)
  | _ => p
  end.

Definition merge_signal (signal_desc p : pyval) : result pyval :=
  sl <- getitem p "signal_list" ;;
  match sl with
  | PList l =>
      sig <- name_matches (getitem signal_desc "name") l 0 ;;
      match sig with
      | [] => Ret (with_signal_list p (l ++ [signal_desc]))
      | j :: _ =>
          s <- py_update (nth j l PNone) signal_desc ;;
          Ret (with_signal_list p (set_nth j s l))
      end
  | _ =>
      (* a str, dict or intbv can be filtered but has no [append]; none of
         their elements has a string subscript *)
      elems <- py_iter sl ;;
      sig <- name_matches (getitem signal_desc "name") elems 0 ;;
      match sig with
      | [] => Raise (AttributeError "append")
      | _ :: _ => Raise TypeError_builtin
      end
  end.

Definition port_body (signal_desc description : pyval) (kwargs : dict)
  (p : pyval) : outcome :=
  match (if py_ne description (PStr "")
         then py_update p (PDict [("description", description)])
         else Ret p) with
  | Raise e => (p, Some e)
  | Ret p1 =>
      match (match signal_desc with
             | PNone => Ret p1
             | _ => merge_signal signal_desc p1
             end) with
      | Raise e => (p1, Some e)
      | Ret p2 =>
          match py_update p2 (PDict kwargs) with
          | Raise e => (p2, Some e)
          | Ret p3 => (p3, None)
          end
      end
  end.

Definition add_port (name signal_desc description : pyval) (kwargs : dict)
  (self : noc_codegen_base) : noc_codegen_base * result pyval :=
  if negb (isinstance_str name) then (self, Raise (TypeError_name name))
  else
    match check_signal_desc signal_desc with
    | Raise e => (self, Raise e)
    | Ret _ =>
        match name_matches (Ret name) (ports self) 0 with
        | Raise e => (self, Raise e)
        | Ret p =>
            let (l, i) := locate p (ports self) (get_new_port [("name", name)]) in
            let o := port_body signal_desc description kwargs (nth i l PNone) in
            (set_ports (set_nth i (fst o) l) self, finish o)
        end
    end.

(** ** [add_external_signal] *)

(** The [value] argument: a plain value, or a myhdl signal, of which the
    method reads [_init]. *)
Inductive value_arg : Type :=
| Plain (v : pyval)
| SignalType (_init : pyval).

Definition signal_body (direction value description : pyval) (kwargs : dict)
  (sig : pyval) : outcome :=
  match py_update sig (PDict [("direction", direction); ("default_value", value);
                              ("description", description)]) with
  | Raise e => (sig, Some e)
  | Ret s1 =>
      match py_update s1 (PDict kwargs) with
      | Raise e => (s1, Some e)
      | Ret s2 => (s2, None)
      end
  end.

Definition add_external_signal (name direction : pyval) (value : value_arg)
  (description : pyval) (kwargs : dict)
  (self : noc_codegen_base) : noc_codegen_base * result pyval :=
  if negb (isinstance_str name) then (self, Raise (TypeError_name name))
  else
    let value := match value with Plain v => v | SignalType i => i end in
    if negb (isinstance_bool_int_intbv value)
    then (self, Raise (TypeError_unsupported value))
    else if negb (list_contains direction [PStr "in"; PStr "out"])
    then (self, Raise (ValueError_direction direction))
    else
      match name_matches (Ret name) (external_signals self) 0 with
      | Raise e => (self, Raise e)
      | Ret sig =>
          let (l, i) := locate sig (external_signals self)
                          (get_new_signal [("name", name)]) in
          let o := signal_body direction value description kwargs (nth i l PNone) in
          (set_external_signals (set_nth i (fst o) l) self, finish o)
      end.

(** ** [build_implementation] *)

(** The new object, the warnings issued through [warnings.warn], and the
    way the call ends. *)
Definition build_implementation (self : noc_codegen_base)
  : noc_codegen_base * list string * result unit :=
  match codemodel (nocobject_ref self) with
  | None => (self, [], Ret tt)
  | Some cm =>
      let (warned, got) :=
        match generate_implementation cm with
        | None => (["Method 'generate_implementation()' not found."], Ret (PStr ""))
        | Some (not_callable _) =>
            (["Attribute 'generate_implementation()' not callable"], Ret (PStr ""))
        | Some (callable call) => ([], call)
        end in
      match got with
      | Raise e => (self, warned, Raise e)
      | Ret impl =>
          (if isinstance_str impl then set_implementation impl self else self,
           warned, Ret tt)
      end
  end.

(** ** [model_hash] *)

(** [l.sort(key = ...)].  Python's sort is stable and compares with [<]
    only; on keys that [<] orders totally every stable sort gives the same
    list, which is the one built here by insertion from the right. *)
Fixpoint insert_by_key {A : Type} (key : A -> pyval) (x : A) (l : list A)
  : list A :=
  match l with
  | [] => [x]
  | y :: l' =>
      if py_lt (key y) (key x) then y :: insert_by_key key x l'
      else x :: y :: l'
  end.

Definition sort_by_key {A : Type} (key : A -> pyval) (l : list A) : list A :=
  fold_right (insert_by_key key) [] l.

(** [for g in l: hash_str += "%s%s" % (g[0], g[1])] *)
Definition add_stream {A : Type} (g0 g1 : A -> pyval) (hash_str : string)
  (l : list A) : string :=
  fold_left (fun acc g => (acc ++ (py_str (g0 g) ++ py_str (g1 g)))%string) l hash_str.

Definition hash_gen_entry (g : pyval) : result (pyval * pyval) :=
  n <- getitem g "name" ;;
  t <- getitem g "type" ;;
  Ret (n, t).

Definition hash_port_entry (g : pyval) : result (pyval * pyval * nat) :=
  n <- getitem g "name" ;;
  t <- getitem g "type" ;;
  s <- getitem g "signal_list" ;;
  len <- py_len s ;;
  Ret (n, t, len).

Definition hash_ext_entry (g : pyval) : result (pyval * pyval * pyval) :=
  n <- getitem g "name" ;;
  t <- getitem g "type" ;;
  d <- getitem g "direction" ;;
  Ret (n, t, d).

Definition hash_of (self : noc_codegen_base) : result string :=
  let hash_str := "" in
  hash_gen <- mapM hash_gen_entry (generics self) ;;
  let hash_str := add_stream fst snd hash_str (sort_by_key fst hash_gen) in
  hash_port <- mapM hash_port_entry (ports self) ;;
  let hash_str :=
    add_stream (fun g => fst (fst g)) (fun g => snd (fst g)) hash_str
      (sort_by_key (fun g => fst (fst g)) hash_port) in
  hash_ext <- mapM hash_ext_entry (external_signals self) ;;
  let hash_str :=
    add_stream (fun g => fst (fst g)) (fun g => snd (fst g)) hash_str
      (sort_by_key (fun g => fst (fst g)) hash_ext) in
  Ret hash_str.

Definition model_hash (self : noc_codegen_base)
  : noc_codegen_base * result string :=
  match hash_of self with
  | Raise e => (self, Raise e)
  | Ret hash_str => (set_interface_hash (PStr hash_str) self, Ret hash_str)
  end.

End Model.

(** ** A runtime to compute with

    Scalars format as CPython 2 prints them and order as it orders them
    ([None] first, then numbers by value, then strings byte by byte).  The
    string form and the order of lists and dictionaries are outside this
    instance (no statement below evaluates them). *)

Definition str_int (z : Z) : string := NilZero.string_of_int (Z.to_int z).

Definition scalar_str (v : pyval) : string :=
  match v with
  | PNone => "None"
  | PBool true => "True"
  | PBool false => "False"
  | PInt z | PIntbv z _ => str_int z
  | PStr s => s
  | PList _ | PDict _ => ""
  end.

Definition kind_rank (v : pyval) : nat :=
  match v with
  | PNone => 0
  | PBool _ | PInt _ | PIntbv _ _ => 1
  | PDict _ => 2
  | PList _ => 3
  | PStr _ => 4
  end.

Definition scalar_lt (a b : pyval) : bool :=
  match a, b with
  | PStr s, PStr t => String.ltb s t
  | _, _ =>
      match num_of a, num_of b with
      | Some x, Some y => Z.ltb x y
      | _, _ => Nat.ltb (kind_rank a) (kind_rank b)
      end
  end.

#[export] Instance cpython2 : PyRuntime := {|
  py_str := scalar_str;
  py_lt := scalar_lt;
  py_str_str := fun s => eq_refl;
  py_lt_str := fun s t => eq_refl
|}.

(** ** Sample objects *)

Definition set_nocobject_ref (ref : nocobject) (self : noc_codegen_base) :=
  {| nocobject_ref := ref;
     external_conversion := external_conversion self;
     docheader := docheader self; libraries := libraries self;
     modulename := modulename self;
     generics := generics self; ports := ports self;
     external_signals := external_signals self;
     implementation := implementation self;
     interface_hash := interface_hash self |}.

Definition set_modulename (v : pyval) (self : noc_codegen_base) :=
  {| nocobject_ref := nocobject_ref self;
     external_conversion := external_conversion self;
     docheader := docheader self; libraries := libraries self;
     modulename := v;
     generics := generics self; ports := ports self;
     external_signals := external_signals self;
     implementation := implementation self;
     interface_hash := interface_hash self |}.

Definition bare_subject : nocobject := {| codemodel := None |}.

(** A subject whose code model has no [generate_implementation]. *)
Definition mute_subject : nocobject :=
  {| codemodel := Some {| generate_implementation := None |} |}.

(** A subject whose [generate_implementation] is an attribute, not a method. *)
Definition inert_subject (v : pyval) : nocobject :=
  {| codemodel := Some {| generate_implementation := Some (not_callable v) |} |}.

Definition clk_signal : pyval :=
  PDict [("class", PStr "signal"); ("name", PStr "clk");
         ("type", PStr "std_logic"); ("direction", PStr "in")].

(** The model of the end-to-end example: a generic, a clock port with its
    signal, and an external reset. *)
Definition sample : noc_codegen_base :=
  let m := __init__ bare_subject in
  let m := fst (add_generic (PStr "DATA_WIDTH") (PInt 8) (PStr "bus width")
                  [("type", PStr "integer")] m) in
  let m := fst (add_port (PStr "clk_port") clk_signal (PStr "clock input")
                  [("type", PStr "clock")] m) in
  fst (add_external_signal (PStr "rst") (PStr "in") (Plain (PBool false))
         (PStr "") [("type", PStr "std_logic")] m).

(** Two generics whose names run into each other, and the same object
    built with the first generic under another name. *)
Definition original : noc_codegen_base :=
  let m := __init__ bare_subject in
  let m := fst (add_generic (PStr "ab") (PInt 1) (PStr "") [] m) in
  fst (add_generic (PStr "aba") (PInt 2) (PStr "") [] m).

Definition renamed : noc_codegen_base :=
  let m := __init__ bare_subject in
  let m := fst (add_generic (PStr "ba") (PInt 1) (PStr "") [] m) in
  fst (add_generic (PStr "aba") (PInt 2) (PStr "") [] m).

(** The sample after a caller replaced the signal list of its port by
    [None] through a keyword argument. *)
Definition broken_port : noc_codegen_base :=
  fst (add_port (PStr "clk_port") PNone (PStr "") [("signal_list", PNone)] sample).

(** ** Notions the statements use *)

(** What [add_external_signal] keeps of its [value] argument. *)
Definition coerce (value : value_arg) : pyval :=
  match value with Plain v => v | SignalType i => i end.

(** Keyword arguments never carry the name of a declared parameter: the
    interpreter rejects such a call before the body runs. *)
Definition no_key (keys : list string) (kwargs : dict) : bool :=
  forallb (fun k => negb (dict_has k kwargs)) keys.

Definition add_generic_kwargs (kwargs : dict) : bool :=
  no_key ["name"; "value"; "description"] kwargs.
Definition add_port_kwargs (kwargs : dict) : bool :=
  no_key ["name"; "signal_desc"; "description"] kwargs.
Definition add_external_signal_kwargs (kwargs : dict) : bool :=
  no_key ["name"; "direction"; "value"; "description"] kwargs.

(** An entry the name filter can read: a dictionary with a ["name"]. *)
Definition is_record (x : pyval) : bool :=
  match x with
  | PDict d => dict_has "name" d
  | _ => false
  end.

Definition records (l : list pyval) : bool := forallb is_record l.

(** A port whose signal list is a list of records. *)
Definition is_port (x : pyval) : bool :=
  match x with
  | PDict d =>
      dict_has "name" d &&
      match dict_get "signal_list" d with
      | Some (PList l) => records l
      | _ => false
      end
  | _ => false
  end.

(** [x["name"] == name], false when there is no such key. *)
Definition named (name x : pyval) : bool :=
  match x with
  | PDict d =>
      match dict_get "name" d with
      | Some n => py_eq n name
      | None => false
      end
  | _ => false
  end.

Fixpoint positions (name : pyval) (l : list pyval) (i : nat) : list nat :=
  match l with
  | [] => []
  | x :: l' =>
      if named name x then i :: positions name l' (S i)
      else positions name l' (S i)
  end.

Fixpoint first_named (name : pyval) (l : list pyval) : option nat :=
  match l with
  | [] => None
  | x :: l' =>
      if named name x then Some 0
      else option_map S (first_named name l')
  end.

(** The entry a method works on, and the list once the entry is put back. *)
Definition target (name fresh : pyval) (l : list pyval) : pyval :=
  match first_named name l with
  | None => fresh
  | Some i => nth i l PNone
  end.

Definition put (name y : pyval) (l : list pyval) : list pyval :=
  match first_named name l with
  | None => l ++ [y]
  | Some i => set_nth i y l
  end.

(** Looking an entry up the way the methods do: filter on the name, take
    the first. *)
Definition lookup (name : pyval) (l : list pyval) : result (option pyval) :=
  found <- name_matches (Ret name) l 0 ;;
  Ret (match found with
       | [] => None
       | i :: _ => Some (nth i l PNone)
       end).

Definition signals_of (p : pyval) : list pyval :=
  match p with
  | PDict d =>
      match dict_get "signal_list" d with
      | Some (PList l) => l
      | _ => []
      end
  | _ => []
  end.

Definition ports_ok (l : list pyval) : bool := forallb is_port l.

(** [sig.update(signal_desc)] on a stored signal. *)
Definition absorb (signal_desc : dict) (x : pyval) : pyval :=
  match x with
  | PDict d => PDict (dict_update d signal_desc)
  | _ => x
  end.

(** The signal list of a port after [signal_desc], whose name is [nm], has
    been merged into it. *)
Definition merged_list (nm : pyval) (signal_desc : dict) (l : list pyval)
  : list pyval :=
  match first_named nm l with
  | None => l ++ [PDict signal_desc]
  | Some j => set_nth j (absorb signal_desc (nth j l PNone)) l
  end.

Definition described (description : pyval) (d : dict) : dict :=
  if py_ne description (PStr "") then dict_set "description" description d else d.

Definition merged (signal_desc : pyval) (d : dict) : dict :=
  match signal_desc with
  | PDict sd =>
      match dict_get "name" sd with
      | Some nm =>
          dict_set "signal_list"
            (PList (merged_list nm sd (signals_of (PDict d)))) d
      | None => d
      end
  | _ => d
  end.

(** ** Editing a field of a stored record *)

(** [x[k] = v] on a stored dictionary. *)
Definition retouch (k : string) (v : pyval) (x : pyval) : pyval :=
  match x with
  | PDict d => PDict (dict_set k v d)
  | _ => x
  end.

Definition retouch_at (i : nat) (k : string) (v : pyval) (l : list pyval)
  : list pyval :=
  set_nth i (retouch k v (nth i l PNone)) l.

(** The same on the [j]-th signal of a port. *)
Definition retouch_signal (j : nat) (k : string) (v : pyval) (p : pyval) : pyval :=
  match p with
  | PDict d =>
      match dict_get "signal_list" d with
      | Some (PList l) => PDict (dict_set "signal_list" (PList (retouch_at j k v l)) d)
      | _ => p
      end
  | _ => p
  end.

Inductive edit : Type :=
| EditGeneric (i : nat) (k : string) (v : pyval)
| EditPort (i : nat) (k : string) (v : pyval)
| EditExternalSignal (i : nat) (k : string) (v : pyval)
| EditPortSignal (i j : nat) (k : string) (v : pyval).

Definition apply_edit (e : edit) (self : noc_codegen_base) : noc_codegen_base :=
  match e with
  | EditGeneric i k v => set_generics (retouch_at i k v (generics self)) self
  | EditPort i k v => set_ports (retouch_at i k v (ports self)) self
  | EditExternalSignal i k v =>
      set_external_signals (retouch_at i k v (external_signals self)) self
  | EditPortSignal i j k v =>
      set_ports (set_nth i (retouch_signal j k v (nth i (ports self) PNone))
                   (ports self)) self
  end.

Definition apply_edits (es : list edit) (self : noc_codegen_base)
  : noc_codegen_base :=
  fold_left (fun m e => apply_edit e m) es self.

Definition edit_key (e : edit) : string :=
  match e with
  | EditGeneric _ k _ | EditPort _ k _ | EditExternalSignal _ k _
  | EditPortSignal _ _ k _ => k
  end.

Definition edit_value (e : edit) : pyval :=
  match e with
  | EditGeneric _ _ v | EditPort _ _ v | EditExternalSignal _ _ v
  | EditPortSignal _ _ _ v => v
  end.

(** The fields the hash is said not to depend on. *)
Definition value_fields : list string :=
  ["default_value"; "current_value"; "description"; "type_array"].

Definition is_value_field (k : string) : bool :=
  existsb (String.eqb k) value_fields.

(** The record of a collection that an edit changes (edits of a port's
    signal have none: they change a record inside a record). *)
Definition edited_record (e : edit) (self : noc_codegen_base) : option pyval :=
  match e with
  | EditGeneric i _ _ => nth_error (generics self) i
  | EditPort i _ _ => nth_error (ports self) i
  | EditExternalSignal i _ _ => nth_error (external_signals self) i
  | EditPortSignal _ _ _ _ => None
  end.

Definition type_of (x : pyval) : option pyval :=
  match x with
  | PDict d => dict_get "type" d
  | _ => None
  end.

(** ** The hash, collection by collection *)

Section Streams.
Context {RT : PyRuntime}.

(** ["%s%s" % (g[0], g[1])] *)
Definition piece {A : Type} (g0 g1 : A -> pyval) (g : A) : string :=
  (py_str (g0 g) ++ py_str (g1 g))%string.

Definition stream {A : Type} (g0 g1 : A -> pyval) (l : list A) : string :=
  fold_right (fun g acc => (piece g0 g1 g ++ acc)%string) EmptyString l.

(** What one collection contributes to the hash: its tuples are built,
    sorted on the name, and written out. *)
Definition collection_stream {A : Type} (f : pyval -> result A)
  (g0 g1 : A -> pyval) (l : list pyval) : result string :=
  xs <- mapM f l ;;
  Ret (stream g0 g1 (sort_by_key g0 xs)).

Definition generics_stream : list pyval -> result string :=
  collection_stream hash_gen_entry fst snd.
Definition ports_stream : list pyval -> result string :=
  collection_stream hash_port_entry (fun g => fst (fst g)) (fun g => snd (fst g)).
Definition external_signals_stream : list pyval -> result string :=
  collection_stream hash_ext_entry (fun g => fst (fst g)) (fun g => snd (fst g)).

End Streams.

(** ** Find-or-create as one list operation *)

Definition lift (F : dict -> dict) (x : pyval) : pyval :=
  match x with
  | PDict d => PDict (F d)
  | _ => x
  end.

Definition upsert (name fresh : pyval) (F : dict -> dict) (l : list pyval)
  : list pyval :=
  put name (lift F (target name fresh l)) l.

(** Where [put] leaves the entry. *)
Definition slot (name : pyval) (l : list pyval) : nat :=
  match first_named name l with
  | Some i => i
  | None => List.length l
  end.

(** The field updates of the three method bodies. *)
Definition generic_fields (value description : pyval) (kwargs d : dict) : dict :=
  dict_update
    (dict_update d [("default_value", value); ("description", description)])
    kwargs.

Definition port_fields (signal_desc description : pyval) (kwargs d : dict) : dict :=
  dict_update (merged signal_desc (described description d)) kwargs.

Definition signal_fields (direction value description : pyval) (kwargs d : dict)
  : dict :=
  dict_update
    (dict_update d [("direction", direction); ("default_value", value);
                    ("description", description)])
    kwargs.


(** Records that carry what [model_hash] reads. *)
Definition has_keys (keys : list string) (x : pyval) : bool :=
  match x with
  | PDict d => forallb (fun k => dict_has k d) keys
  | _ => false
  end.

Definition sized_signal_list (x : pyval) : bool :=
  match x with
  | PDict d =>
      match dict_get "signal_list" d with
      | Some (PList _) | Some (PDict _) | Some (PStr _) | Some (PIntbv _ _) => true
      | _ => false
      end
  | _ => false
  end.

Definition hashable (self : noc_codegen_base) : bool :=
  forallb (has_keys ["name"; "type"]) (generics self)
  && forallb (fun p => has_keys ["name"; "type"] p && sized_signal_list p)
       (ports self)
  && forallb (has_keys ["name"; "type"; "direction"]) (external_signals self).

(** ** Names as strings *)

(** The name of a record, when it is a [str]. *)
Definition str_name (x : pyval) : option string :=
  match x with
  | PDict d =>
      match dict_get "name" d with
      | Some (PStr s) => Some s
      | _ => None
      end
  | _ => None
  end.

Fixpoint str_names (l : list pyval) : option (list string) :=
  match l with
  | [] => Some []
  | x :: l' =>
      match str_name x, str_names l' with
      | Some s, Some ns => Some (s :: ns)
      | _, _ => None
      end
  end.

Fixpoint nodupb (l : list string) : bool :=
  match l with
  | [] => true
  | s :: l' => negb (existsb (String.eqb s) l') && nodupb l'
  end.

(** Every entry is a record named by a string, and no two share a name. *)
Definition distinct_names (l : list pyval) : bool :=
  match str_names l with
  | Some ns => nodupb ns
  | None => false
  end.

Definition names_ok (self : noc_codegen_base) : bool :=
  distinct_names (generics self) && distinct_names (ports self)
  && distinct_names (external_signals self).

(** ** Sequences of calls *)

Inductive call : Type :=
| Call_add_generic (name value description : pyval) (kwargs : dict)
| Call_add_port (name signal_desc description : pyval) (kwargs : dict)
| Call_add_external_signal (name direction : pyval) (value : value_arg)
    (description : pyval) (kwargs : dict).

Definition run_call (c : call) (self : noc_codegen_base)
  : noc_codegen_base * result pyval :=
  match c with
  | Call_add_generic n v d kw => add_generic n v d kw self
  | Call_add_port n sd d kw => add_port n sd d kw self
  | Call_add_external_signal n dir v d kw => add_external_signal n dir v d kw self
  end.

(** The object after the calls, made one after the other by a caller that
    goes on after an exception. *)
Definition run_calls (cs : list call) (self : noc_codegen_base)
  : noc_codegen_base :=
  fold_left (fun m c => fst (run_call c m)) cs self.

Definition call_kwargs_ok (c : call) : bool :=
  match c with
  | Call_add_generic _ _ _ kw => add_generic_kwargs kw
  | Call_add_port _ _ _ kw => add_port_kwargs kw
  | Call_add_external_signal _ _ _ _ kw => add_external_signal_kwargs kw
  end.

(** The signals of the port found under a name; none when there is no
    such port. *)
Definition port_signals (name : pyval) (self : noc_codegen_base) : list pyval :=
  match lookup name (ports self) with
  | Ret (Some p) => signals_of p
  | _ => []
  end.

(** The sample with a second generic. *)
Definition sample2 : noc_codegen_base :=
  fst (add_generic (PStr "ADDR_WIDTH") (PInt 32) (PStr "address bits")
         [("type", PStr "natural")] sample).

(** ** The hash as a list of pairs *)

Definition str_keyed {A : Type} (key : A -> pyval) (x : A) : Prop :=
  exists s, key x = PStr s.

(** The string of a [str]. *)
Definition str_of (v : pyval) : string :=
  match v with
  | PStr s => s
  | _ => EmptyString
  end.

(** The name of a record and the string form of its type. *)
Definition entry_pair {RT : PyRuntime} (x : pyval) : option (string * string) :=
  match getitem x "name", getitem x "type" with
  | Ret (PStr n), Ret t => Some (n, py_str t)
  | _, _ => None
  end.

(** The pairs written one after the other. *)
(** [b] is not below [a] in the order of the sort. *)
Definition not_below {RT : PyRuntime} {A : Type} (key : A -> pyval) (a b : A) : Prop :=
  py_lt (key b) (key a) = false.

Definition strictly_below {A : Type} (key : A -> pyval) (a b : A) : Prop :=
  String.ltb (str_of (key a)) (str_of (key b)) = true.

(** What one tuple of the sorted list contributes. *)
Definition pair_of {RT : PyRuntime} {A : Type} (g0 g1 : A -> pyval) (t : A)
  : string * string :=
  (str_of (g0 t), py_str (g1 t)).

Definition written (l : list (string * string)) : string :=
  fold_right (fun p acc => (fst p ++ snd p ++ acc)%string) EmptyString l.

(** * Properties *)

(** ** Dictionaries and positions *)

Lemma dict_get_set (k k' : string) (v : pyval) (d : dict) :
  dict_get k (dict_set k' v d) = if String.eqb k k' then Some v else dict_get k d.
Proof.
  induction d as [|[k0 v0] d IH]; simpl.
  - reflexivity.
  - destruct (String.eqb_spec k' k0) as [->|Hk0]; simpl.
    + destruct (String.eqb_spec k k0); reflexivity.
    + rewrite IH.
      destruct (String.eqb_spec k k0) as [->|Hk].
      * destruct (String.eqb_spec k0 k'); [congruence|reflexivity].
      * reflexivity.
Qed.

Lemma dict_get_update (k : string) (d other : dict) :
  dict_get k (dict_update d other) =
  match dict_get k other with
  | Some v => Some v
  | None => dict_get k d
  end.
Proof.
  induction other as [|[k0 v0] o IH]; simpl; [reflexivity|].
  rewrite dict_get_set, IH. now destruct (String.eqb k k0).
Qed.

Lemma py_eq_str (x : pyval) (s : string) :
  py_eq x (PStr s) = true <-> x = PStr s.
Proof.
  destruct x as [|b|z|z n|t|l|d]; simpl; try (split; discriminate).
  split.
  - intros H; apply String.eqb_eq in H; now subst.
  - intros [= ->]; apply String.eqb_refl.
Qed.


Lemma length_set_nth {A : Type} (i : nat) (x : A) (l : list A) :
  List.length (set_nth i x l) = List.length l.
Proof.
  revert i; induction l as [|y l IH]; intros [|i]; simpl; auto.
Qed.

Lemma nth_error_set_nth_eq {A : Type} (i : nat) (x : A) (l : list A) :
  i < List.length l -> nth_error (set_nth i x l) i = Some x.
Proof.
  revert i; induction l as [|y l IH]; intros [|i]; simpl; intros H; try lia; auto.
  apply IH; lia.
Qed.

Lemma nth_error_set_nth_neq {A : Type} (i j : nat) (x : A) (l : list A) :
  i <> j -> nth_error (set_nth i x l) j = nth_error l j.
Proof.
  revert i j; induction l as [|y l IH]; intros [|i] [|j] H; simpl; auto; try congruence.
Qed.

Lemma set_nth_app_last {A : Type} (x y : A) (l : list A) :
  set_nth (List.length l) y (l ++ [x]) = l ++ [y].
Proof.
  induction l as [|z l IH]; simpl; [reflexivity|now rewrite IH].
Qed.




(** ** Argument checks *)

Section Checks.

Variables (name description : pyval) (kwargs : dict) (self : noc_codegen_base).

Lemma add_generic_bad_name (value : pyval) :
  isinstance_str name = false ->
  add_generic name value description kwargs self = (self, Raise (TypeError_name name)).
Proof. intros H. unfold add_generic. now rewrite H. Qed.

Lemma add_port_bad_name (signal_desc : pyval) :
  isinstance_str name = false ->
  add_port name signal_desc description kwargs self = (self, Raise (TypeError_name name)).
Proof. intros H. unfold add_port. now rewrite H. Qed.

Lemma add_external_signal_bad_name (direction : pyval) (value : value_arg) :
  isinstance_str name = false ->
  add_external_signal name direction value description kwargs self
  = (self, Raise (TypeError_name name)).
Proof. intros H. unfold add_external_signal. now rewrite H. Qed.

End Checks.

Lemma finish_raise (o : outcome) (e : exn) :
  finish o = Raise e -> snd o = Some e.
Proof.
  unfold finish. destruct (snd o); [intros [= ->]; reflexivity | discriminate].
Qed.

Lemma getitem_not_validation (x : pyval) (k : string) (e : exn) :
  getitem x k = Raise e -> is_validation_error e = false.
Proof.
  destruct x; simpl; try (intros [= <-]; reflexivity).
  destruct (dict_get k d); [discriminate | intros [= <-]; reflexivity].
Qed.

Lemma py_update_not_validation (x y : pyval) (e : exn) :
  py_update x y = Raise e -> is_validation_error e = false.
Proof.
  destruct x; simpl; try (intros [= <-]; reflexivity).
  destruct y; simpl; try (intros [= <-]; reflexivity); discriminate.
Qed.

Lemma name_matches_not_validation (key : result pyval) (l : list pyval) (i : nat) (e : exn) :
  (forall e', key = Raise e' -> is_validation_error e' = false) ->
  name_matches key l i = Raise e -> is_validation_error e = false.
Proof.
  intros Hkey. revert i; induction l as [|x l IH]; intros i; simpl; [discriminate|].
  destruct (getitem x "name") eqn:G; simpl.
  - destruct key as [k|e'] eqn:K; simpl.
    + destruct (name_matches (Ret k) l (S i)) eqn:N; simpl; [discriminate|].
      intros [= <-]. eapply IH; eauto.
    + intros [= <-]. now apply Hkey.
  - intros [= <-]. eapply getitem_not_validation; eauto.
Qed.

Lemma generic_body_not_validation (value description : pyval) (kwargs : dict)
  (g : pyval) (e : exn) :
  snd (generic_body value description kwargs g) = Some e ->
  is_validation_error e = false.
Proof.
  unfold generic_body.
  destruct (py_update g _) as [g1|e1] eqn:U1; simpl.
  - destruct (py_update g1 _) as [g2|e2] eqn:U2; simpl; [discriminate|].
    intros [= <-]. eapply py_update_not_validation; eauto.
  - intros [= <-]. eapply py_update_not_validation; eauto.
Qed.

Lemma signal_body_not_validation (direction value description : pyval)
  (kwargs : dict) (sig : pyval) (e : exn) :
  snd (signal_body direction value description kwargs sig) = Some e ->
  is_validation_error e = false.
Proof.
  unfold signal_body.
  destruct (py_update sig _) as [g1|e1] eqn:U1; simpl.
  - destruct (py_update g1 _) as [g2|e2] eqn:U2; simpl; [discriminate|].
    intros [= <-]. eapply py_update_not_validation; eauto.
  - intros [= <-]. eapply py_update_not_validation; eauto.
Qed.

Lemma merge_signal_not_validation (signal_desc p : pyval) (e : exn) :
  merge_signal signal_desc p = Raise e -> is_validation_error e = false.
Proof.
  unfold merge_signal.
  destruct (getitem p "signal_list") as [sl|e0] eqn:G; simpl;
    [|intros [= <-]; eapply getitem_not_validation; eauto].
  assert (Hkey : forall e', getitem signal_desc "name" = Raise e' ->
                            is_validation_error e' = false)
    by (intros e'; apply getitem_not_validation).
  destruct sl as [|b|z|z n|t|l|d]; simpl;
    try (intros [= <-]; reflexivity).
  - destruct n; simpl; [intros [= <-]; reflexivity|].
    destruct (name_matches _ _ 0) as [sig|e1] eqn:N; simpl.
    + destruct sig; intros [= <-]; reflexivity.
    + intros [= <-]. eapply name_matches_not_validation; eauto.
  - destruct (name_matches _ _ 0) as [sig|e1] eqn:N; simpl.
    + destruct sig; intros [= <-]; reflexivity.
    + intros [= <-]. eapply name_matches_not_validation; eauto.
  - destruct (name_matches _ l 0) as [sig|e1] eqn:N; simpl.
    + destruct sig as [|j sig]; [discriminate|].
      destruct (py_update _ _) eqn:U; simpl; [discriminate|].
      intros [= <-]. eapply py_update_not_validation; eauto.
    + intros [= <-]. eapply name_matches_not_validation; eauto.
  - destruct (name_matches _ _ 0) as [sig|e1] eqn:N; simpl.
    + destruct sig; intros [= <-]; reflexivity.
    + intros [= <-]. eapply name_matches_not_validation; eauto.
Qed.

Lemma port_body_not_validation (signal_desc description : pyval)
  (kwargs : dict) (p : pyval) (e : exn) :
  snd (port_body signal_desc description kwargs p) = Some e ->
  is_validation_error e = false.
Proof.
  unfold port_body.
  destruct (if py_ne description (PStr "") then _ else _) as [p1|e1] eqn:U1; simpl.
  - destruct (match signal_desc with PNone => _ | _ => _ end) as [p2|e2] eqn:U2; simpl.
    + destruct (py_update p2 _) as [p3|e3] eqn:U3; simpl; [discriminate|].
      intros [= <-]. eapply py_update_not_validation; eauto.
    + intros [= <-].
      destruct signal_desc; try discriminate;
        eapply merge_signal_not_validation; eauto.
  - intros [= <-].
    destruct (py_ne description (PStr "")); [|discriminate].
    eapply py_update_not_validation; eauto.
Qed.

(** ** Atomicity of the argument checks *)

(** C9: when [add_generic], [add_port] or [add_external_signal] ends with
    one of the validation errors (name, value type, signal_desc shape,
    direction), the object is exactly the one the call started from.  For
    [add_port] the same holds of whatever the interpreter raises while the
    shape of [signal_desc] is being checked. *)
Theorem add_methods_atomic_on_validation_error :
  (forall name value description kwargs self self' e,
      add_generic name value description kwargs self = (self', Raise e) ->
      is_validation_error e = true -> self' = self)
  /\ (forall name signal_desc description kwargs self self' e,
      add_port name signal_desc description kwargs self = (self', Raise e) ->
      is_validation_error e = true
      \/ (exists e', check_signal_desc signal_desc = Raise e') ->
      self' = self)
  /\ (forall name direction value description kwargs self self' e,
      add_external_signal name direction value description kwargs self
      = (self', Raise e) ->
      is_validation_error e = true -> self' = self).
Proof.
  repeat split.
  - intros name value description kwargs self self' e. unfold add_generic.
    destruct (negb (isinstance_str name)); [now intros [= <- _]|].
    destruct (negb (isinstance_bool_int_intbv_str value)); [now intros [= <- _]|].
    destruct (name_matches (Ret name) (generics self) 0) as [g|e0] eqn:N.
    + destruct (locate g _ _) as [l i]. intros [= _ F] V.
      apply finish_raise, generic_body_not_validation in F. congruence.
    + now intros [= <- _].
  - intros name signal_desc description kwargs self self' e. unfold add_port.
    destruct (negb (isinstance_str name)); [now intros [= <- _]|].
    destruct (check_signal_desc signal_desc); [|now intros [= <- _]].
    destruct (name_matches (Ret name) (ports self) 0) as [g|e0] eqn:N.
    + destruct (locate g _ _) as [l i]. intros [= _ F] [V|(e' & V)]; [|discriminate].
      apply finish_raise, port_body_not_validation in F. congruence.
    + now intros [= <- _].
  - intros name direction value description kwargs self self' e.
    unfold add_external_signal.
    destruct (negb (isinstance_str name)); [now intros [= <- _]|].
    destruct (negb (isinstance_bool_int_intbv _)); [now intros [= <- _]|].
    destruct (negb (list_contains direction _)); [now intros [= <- _]|].
    destruct (name_matches (Ret name) (external_signals self) 0) as [g|e0] eqn:N.
    + destruct (locate g _ _) as [l i]. intros [= _ F] V.
      apply finish_raise, signal_body_not_validation in F. congruence.
    + now intros [= <- _].
Qed.

Lemma add_methods_atomic_witness :
  fst (add_generic (PInt 3) (PInt 1) (PStr "") [] sample) = sample
  /\ fst (add_port (PStr "clk_port") (PDict [("name", PStr "clk")]) (PStr "new")
            [] sample) = sample
  /\ fst (add_external_signal (PStr "rst") (PStr "IN") (Plain (PInt 1))
            (PStr "") [] sample) = sample.
Proof.
  split; [|split].
  - apply (proj1 add_methods_atomic_on_validation_error
             (PInt 3) (PInt 1) (PStr "") [] sample _ (TypeError_name (PInt 3)));
      reflexivity.
  - apply (proj1 (proj2 add_methods_atomic_on_validation_error)
             (PStr "clk_port") (PDict [("name", PStr "clk")]) (PStr "new") []
             sample _ (TypeError_signal_desc (PDict [("name", PStr "clk")])));
      [reflexivity | left; reflexivity].
  - apply (proj2 (proj2 add_methods_atomic_on_validation_error)
             (PStr "rst") (PStr "IN") (Plain (PInt 1)) (PStr "") []
             sample _ (ValueError_direction (PStr "IN")));
      reflexivity.
Defined.

(** The checks are the only failures that leave no trace: a call that
    fails later, here on a signal list that is no list, has already
    written the description. *)
Lemma add_port_late_failure_keeps_writes :
  snd (add_port (PStr "clk_port") clk_signal (PStr "renamed clock") [] broken_port)
  = Raise TypeError_builtin
  /\ getitem (nth 0 (ports broken_port) PNone) "description"
     = Ret (PStr "clock input")
  /\ getitem (nth 0 (ports (fst (add_port (PStr "clk_port") clk_signal
                                   (PStr "renamed clock") [] broken_port))) PNone)
       "description"
     = Ret (PStr "renamed clock").
Proof. repeat split. Qed.

(** ** Names *)

(** C3, as the code has it: a name that is not a [str] makes each of the
    three methods raise the TypeError of the name check and leaves the
    object as it was.  (The check is [isinstance(name, str)]; it does not
    look at the length of the string.) *)
Theorem non_string_name_rejected :
  forall (name : pyval) (description : pyval) (kwargs : dict)
         (self : noc_codegen_base),
    isinstance_str name = false ->
    (forall value,
        add_generic name value description kwargs self
        = (self, Raise (TypeError_name name)))
    /\ (forall signal_desc,
        add_port name signal_desc description kwargs self
        = (self, Raise (TypeError_name name)))
    /\ (forall direction value,
        add_external_signal name direction value description kwargs self
        = (self, Raise (TypeError_name name)))
    /\ exn_class (TypeError_name name) = TypeError.
Proof.
  intros name description kwargs self H. repeat split; intros.
  - now apply add_generic_bad_name.
  - now apply add_port_bad_name.
  - now apply add_external_signal_bad_name.
Qed.

Lemma non_string_name_rejected_witness :
  add_generic PNone (PInt 1) (PStr "") [] sample = (sample, Raise (TypeError_name PNone))
  /\ add_port (PInt 7) PNone (PStr "") [] sample = (sample, Raise (TypeError_name (PInt 7)))
  /\ add_external_signal (PList []) (PStr "in") (Plain (PInt 0)) (PStr "") [] sample
     = (sample, Raise (TypeError_name (PList []))).
Proof.
  split; [|split].
  - apply (proj1 (non_string_name_rejected PNone (PStr "") [] sample eq_refl)).
  - apply (proj1 (proj2 (non_string_name_rejected (PInt 7) (PStr "") [] sample eq_refl))).
  - apply (proj1 (proj2 (proj2
             (non_string_name_rejected (PList []) (PStr "") [] sample eq_refl)))).
Defined.

(** The empty string passes the name check of all three methods: each call
    returns the new record and the collection has one entry more. *)
Lemma empty_name_accepted :
  (snd (add_generic (PStr "") (PInt 1) (PStr "") [] (__init__ bare_subject))
   = Ret (PDict [("class", PStr "generic"); ("name", PStr ""); ("type", PStr "");
                 ("type_array", PList [PNone; PNone]); ("default_value", PInt 1);
                 ("current_value", PStr ""); ("description", PStr "")])
   /\ List.length (generics (fst (add_generic (PStr "") (PInt 1) (PStr "") []
                                    (__init__ bare_subject)))) = 1)
  /\ (snd (add_port (PStr "") PNone (PStr "") [] (__init__ bare_subject))
      = Ret (PDict [("class", PStr "port"); ("name", PStr ""); ("type", PStr "");
                    ("nocport", PNone); ("signal_list", PList []);
                    ("description", PStr "")])
      /\ List.length (ports (fst (add_port (PStr "") PNone (PStr "") []
                                    (__init__ bare_subject)))) = 1)
  /\ (snd (add_external_signal (PStr "") (PStr "in") (Plain (PInt 0)) (PStr "") []
             (__init__ bare_subject))
      = Ret (PDict [("class", PStr "signal"); ("name", PStr ""); ("type", PStr "");
                    ("type_array", PList [PNone; PNone]); ("direction", PStr "in");
                    ("default_value", PInt 0); ("related_generics", PList []);
                    ("description", PStr "")])
      /\ List.length (external_signals
                        (fst (add_external_signal (PStr "") (PStr "in") (Plain (PInt 0))
                                (PStr "") [] (__init__ bare_subject)))) = 1).
Proof. repeat split. Qed.

(** ** Directions *)

(** C7: with a [str] name and a value of an accepted type, any direction
    string other than ["in"] and ["out"] (["IN"] among them) makes
    [add_external_signal] raise the ValueError of the direction check, and
    the object, hence its external signals, stays as it was. *)
Theorem bad_direction_rejected :
  forall (n s : string) (value : value_arg) (description : pyval)
         (kwargs : dict) (self : noc_codegen_base),
    s <> "in" -> s <> "out" ->
    isinstance_bool_int_intbv (coerce value) = true ->
    add_external_signal (PStr n) (PStr s) value description kwargs self
    = (self, Raise (ValueError_direction (PStr s)))
    /\ exn_class (ValueError_direction (PStr s)) = ValueError.
Proof.
  intros n s value description kwargs self Hin Hout Hv. split; [|reflexivity].
  unfold add_external_signal, coerce in *. simpl isinstance_str. simpl negb at 1.
  cbv iota. rewrite Hv. simpl negb at 1. cbv iota.
  change (list_contains (PStr s) [PStr "in"; PStr "out"])
    with (String.eqb "in" s || (String.eqb "out" s || false)).
  assert (E1 : String.eqb "in" s = false) by (apply String.eqb_neq; congruence).
  assert (E2 : String.eqb "out" s = false) by (apply String.eqb_neq; congruence).
  rewrite E1, E2. reflexivity.
Qed.

Lemma bad_direction_rejected_witness :
  add_external_signal (PStr "rst") (PStr "IN") (SignalType (PBool true))
    (PStr "reset") [] sample
  = (sample, Raise (ValueError_direction (PStr "IN"))).
Proof.
  apply (bad_direction_rejected "rst" "IN" (SignalType (PBool true))
           (PStr "reset") [] sample); [discriminate | discriminate | reflexivity].
Defined.

(** ** The implementation delegate *)

(** C2, at the inputs where the code departs from it.  Without a
    [codemodel] the call changes nothing and issues no warning.  With a
    [codemodel] whose [generate_implementation] is missing or not callable
    the call warns once and then stores the empty string: the prior
    implementation text is lost. *)
Theorem build_implementation_on_missing_capability :
  (forall self,
      build_implementation (set_nocobject_ref bare_subject self)
      = (set_nocobject_ref bare_subject self, [], Ret tt))
  /\ (forall self,
      build_implementation (set_nocobject_ref mute_subject self)
      = (set_implementation (PStr "") (set_nocobject_ref mute_subject self),
         ["Method 'generate_implementation()' not found."], Ret tt))
  /\ (forall self v,
      build_implementation (set_nocobject_ref (inert_subject v) self)
      = (set_implementation (PStr "") (set_nocobject_ref (inert_subject v) self),
         ["Attribute 'generate_implementation()' not callable"], Ret tt))
  /\ implementation
       (fst (fst (build_implementation
                    (set_nocobject_ref mute_subject
                       (set_implementation (PStr "begin end") sample)))))
     = PStr "".
Proof. repeat split. Qed.

(** ** What the hash reads *)

(** C10: [model_hash] reads the three collections only.  Two objects with
    the same generics, ports and external signals return the same result,
    whatever their module name, header, libraries, implementation, subject
    or cached hash. *)
Theorem model_hash_reads_collections_only :
  forall {RT : PyRuntime} (m1 m2 : noc_codegen_base),
    generics m1 = generics m2 ->
    ports m1 = ports m2 ->
    external_signals m1 = external_signals m2 ->
    snd (model_hash m1) = snd (model_hash m2).
Proof.
  intros RT m1 m2 Hg Hp He.
  unfold model_hash, hash_of. rewrite Hg, Hp, He.
  destruct (bind _ _); reflexivity.
Qed.

Lemma model_hash_reads_collections_only_witness :
  snd (model_hash sample)
  = snd (model_hash
           (set_modulename (PStr "router")
              (set_implementation (PStr "begin end")
                 (set_nocobject_ref mute_subject sample))))
  /\ snd (model_hash sample) = Ret "DATA_WIDTHintegerclk_portclockrststd_logic".
Proof.
  split.
  - apply (model_hash_reads_collections_only sample _); reflexivity.
  - reflexivity.
Defined.

(** ** Finding an entry by name *)

Lemma is_record_inv (x : pyval) :
  is_record x = true -> exists d n, x = PDict d /\ dict_get "name" d = Some n.
Proof.
  destruct x as [|b|z|z n|t|l|d]; simpl; try discriminate.
  unfold dict_has. destruct (dict_get "name" d) as [n|] eqn:E; [|discriminate].
  intros _. now exists d, n.
Qed.

Lemma name_matches_records (name : pyval) (l : list pyval) (i : nat) :
  records l = true ->
  name_matches (Ret name) l i = Ret (positions name l i).
Proof.
  revert i; induction l as [|x l IH]; intros i H; simpl in *; [reflexivity|].
  apply andb_prop in H as [Hx Hl].
  destruct (is_record_inv x Hx) as (d & n & -> & Hn).
  simpl. rewrite Hn. simpl. rewrite (IH (S i) Hl). simpl.
  reflexivity.
Qed.

Lemma positions_shift (name : pyval) (l : list pyval) (i : nat) :
  positions name l i = map (fun j => i + j) (positions name l 0).
Proof.
  revert i; induction l as [|x l IH]; intros i; simpl; [reflexivity|].
  rewrite (IH (S i)), (IH 1).
  destruct (named name x); simpl; rewrite ?Nat.add_0_r, map_map;
    try apply f_equal; apply map_ext; intros; lia.
Qed.

Lemma positions_head (name : pyval) (l : list pyval) :
  hd_error (positions name l 0) = first_named name l.
Proof.
  induction l as [|x l IH]; simpl; [reflexivity|].
  destruct (named name x); simpl; [reflexivity|].
  rewrite positions_shift, <- IH.
  destruct (positions name l 0); reflexivity.
Qed.

Lemma first_named_lt (name : pyval) (l : list pyval) (i : nat) :
  first_named name l = Some i -> i < List.length l.
Proof.
  revert i; induction l as [|x l IH]; intros i; simpl; [discriminate|].
  destruct (named name x); [intros [= <-]; lia|].
  destruct (first_named name l) as [j|]; simpl; [|discriminate].
  intros [= <-]. specialize (IH j eq_refl). lia.
Qed.

Lemma first_named_nth (name : pyval) (l : list pyval) (i : nat) :
  first_named name l = Some i -> named name (nth i l PNone) = true.
Proof.
  revert i; induction l as [|x l IH]; intros i; simpl; [discriminate|].
  destruct (named name x) eqn:E; [intros [= <-]; exact E|].
  destruct (first_named name l) as [j|]; simpl; [|discriminate].
  intros [= <-]. now apply IH.
Qed.

(** What [filter] and [locate] come to on a list of records. *)
Lemma locate_records (name fresh : pyval) (l : list pyval) :
  records l = true ->
  exists found,
    name_matches (Ret name) l 0 = Ret found
    /\ nth (snd (locate found l fresh)) (fst (locate found l fresh)) PNone
       = target name fresh l
    /\ forall y,
         set_nth (snd (locate found l fresh)) y (fst (locate found l fresh))
         = put name y l.
Proof.
  intros H. exists (positions name l 0).
  split; [now apply name_matches_records|].
  pose proof (positions_head name l) as Hh.
  unfold target, put, locate.
  destruct (positions name l 0) as [|i rest]; simpl in Hh; rewrite <- Hh; simpl.
  - split.
    + rewrite app_nth2 by lia. now rewrite Nat.sub_diag.
    + intros y. apply set_nth_app_last.
  - split; reflexivity.
Qed.

Lemma lookup_records (name : pyval) (l : list pyval) :
  records l = true ->
  lookup name l = Ret (option_map (fun i => nth i l PNone) (first_named name l)).
Proof.
  intros H. unfold lookup. rewrite name_matches_records by assumption. simpl.
  rewrite <- positions_head. destruct (positions name l 0); reflexivity.
Qed.

Lemma first_named_set_nth (name y : pyval) (l : list pyval) (i : nat) :
  first_named name l = Some i -> named name y = true ->
  first_named name (set_nth i y l) = Some i.
Proof.
  revert i; induction l as [|x l IH]; intros i; simpl; [discriminate|].
  destruct (named name x) eqn:E.
  - intros [= <-] Hy. simpl. now rewrite Hy.
  - destruct (first_named name l) as [j|] eqn:F; simpl; [|discriminate].
    intros [= <-] Hy. simpl. rewrite E, (IH j eq_refl Hy). reflexivity.
Qed.

Lemma first_named_app_new (name y : pyval) (l : list pyval) :
  first_named name l = None -> named name y = true ->
  first_named name (l ++ [y]) = Some (List.length l).
Proof.
  induction l as [|x l IH]; simpl; intros H Hy.
  - now rewrite Hy.
  - destruct (named name x); [discriminate|].
    destruct (first_named name l); [discriminate|].
    now rewrite (IH eq_refl Hy).
Qed.

Lemma first_named_put (name y : pyval) (l : list pyval) :
  named name y = true ->
  first_named name (put name y l) = Some (slot name l).
Proof.
  intros Hy. unfold put, slot.
  destruct (first_named name l) as [i|] eqn:F.
  - now apply first_named_set_nth.
  - now apply first_named_app_new.
Qed.

Lemma nth_error_put (name y : pyval) (l : list pyval) :
  nth_error (put name y l) (slot name l) = Some y.
Proof.
  unfold put, slot. destruct (first_named name l) as [i|] eqn:F.
  - apply nth_error_set_nth_eq. eapply first_named_lt; eauto.
  - rewrite nth_error_app2 by lia. now rewrite Nat.sub_diag.
Qed.

Lemma nth_put (name y : pyval) (l : list pyval) :
  nth (slot name l) (put name y l) PNone = y.
Proof.
  apply nth_error_nth. apply nth_error_put.
Qed.

Lemma records_set_nth (i : nat) (y : pyval) (l : list pyval) :
  records l = true -> is_record y = true -> records (set_nth i y l) = true.
Proof.
  unfold records. revert i; induction l as [|x l IH]; intros [|i] H Hy; simpl in *; auto.
  - apply andb_prop in H as [_ H]. now rewrite Hy.
  - apply andb_prop in H as [Hx H]. rewrite Hx. now apply IH.
Qed.

Lemma records_put (name y : pyval) (l : list pyval) :
  records l = true -> is_record y = true -> records (put name y l) = true.
Proof.
  intros H Hy. unfold put. destruct (first_named name l).
  - now apply records_set_nth.
  - unfold records. rewrite forallb_app. simpl. unfold records in H.
    now rewrite H, Hy.
Qed.

Lemma named_is_record (name x : pyval) : named name x = true -> is_record x = true.
Proof.
  destruct x as [|b|z|z n|t|l|d]; simpl; try discriminate.
  unfold dict_has. destruct (dict_get "name" d); [reflexivity|discriminate].
Qed.

Lemma target_named (name fresh : pyval) (l : list pyval) :
  named name fresh = true -> named name (target name fresh l) = true.
Proof.
  intros H. unfold target. destruct (first_named name l) eqn:F; [|exact H].
  now apply first_named_nth.
Qed.

Lemma put_twice (name y z : pyval) (l : list pyval) :
  named name y = true ->
  put name z (put name y l) = set_nth (slot name l) z (put name y l).
Proof.
  intros Hy. unfold put at 1. now rewrite first_named_put.
Qed.

Lemma target_put (name fresh y : pyval) (l : list pyval) :
  named name y = true -> target name fresh (put name y l) = y.
Proof.
  intros Hy. unfold target. rewrite first_named_put by assumption. apply nth_put.
Qed.

Lemma lookup_put (name y : pyval) (l : list pyval) :
  records l = true -> named name y = true ->
  lookup name (put name y l) = Ret (Some y).
Proof.
  intros H Hy. rewrite lookup_records.
  - rewrite first_named_put by assumption. simpl. now rewrite nth_put.
  - apply records_put; [assumption|]. eapply named_is_record; eauto.
Qed.

Lemma no_key_get (keys : list string) (kwargs : dict) (k : string) :
  no_key keys kwargs = true -> In k keys -> dict_get k kwargs = None.
Proof.
  unfold no_key. rewrite forallb_forall. intros H Hin.
  specialize (H k Hin). unfold dict_has in H.
  destruct (dict_get k kwargs); [discriminate|reflexivity].
Qed.

Lemma named_fresh_generic (s : string) :
  named (PStr s) (get_new_generic [("name", PStr s)]) = true.
Proof. simpl. apply String.eqb_refl. Qed.

Lemma named_fresh_port (s : string) :
  named (PStr s) (get_new_port [("name", PStr s)]) = true.
Proof. simpl. apply String.eqb_refl. Qed.

Lemma named_fresh_signal (s : string) :
  named (PStr s) (get_new_signal [("name", PStr s)]) = true.
Proof. simpl. apply String.eqb_refl. Qed.

Lemma named_inv (name x : pyval) :
  named name x = true ->
  exists d n, x = PDict d /\ dict_get "name" d = Some n /\ py_eq n name = true.
Proof.
  destruct x as [|b|z|z n|t|l|d]; simpl; try discriminate.
  destruct (dict_get "name" d) as [n|] eqn:E; [|discriminate].
  intros H. now exists d, n.
Qed.

(** ** [add_generic] on a list of records *)

Lemma add_generic_records (s : string) (value description : pyval)
  (kwargs : dict) (self : noc_codegen_base) :
  records (generics self) = true ->
  isinstance_bool_int_intbv_str value = true ->
  add_generic (PStr s) value description kwargs self
  = (set_generics
       (put (PStr s)
          (fst (generic_body value description kwargs
                  (target (PStr s) (get_new_generic [("name", PStr s)]) (generics self))))
          (generics self)) self,
     finish (generic_body value description kwargs
               (target (PStr s) (get_new_generic [("name", PStr s)]) (generics self)))).
Proof.
  intros H Hv. unfold add_generic. simpl isinstance_str. simpl negb at 1. cbv iota.
  rewrite Hv. simpl negb at 1. cbv iota.
  destruct (locate_records (PStr s) (get_new_generic [("name", PStr s)]) _ H)
    as (found & N & T & P).
  rewrite N. destruct (locate found _ _) as [l i]. simpl in T, P.
  rewrite T, P. reflexivity.
Qed.

Lemma add_generic_step (s : string) (value description : pyval)
  (kwargs : dict) (self : noc_codegen_base) :
  records (generics self) = true ->
  isinstance_bool_int_intbv_str value = true ->
  add_generic_kwargs kwargs = true ->
  dict_get "default_value" kwargs = None ->
  exists d,
    add_generic (PStr s) value description kwargs self
    = (set_generics (put (PStr s) (PDict d) (generics self)) self, Ret (PDict d))
    /\ named (PStr s) (PDict d) = true
    /\ dict_get "default_value" d = Some value
    /\ dict_get "description" d = Some description.
Proof.
  intros H Hv Hk Hdv.
  rewrite add_generic_records by assumption.
  pose proof (target_named (PStr s) _ (generics self) (named_fresh_generic s)) as Ht.
  destruct (named_inv _ _ Ht) as (d0 & n & -> & Hn & Hpy).
  eexists. split; [reflexivity|].
  assert (Kn : dict_get "name" kwargs = None)
    by (eapply no_key_get; [exact Hk|simpl; auto]).
  assert (Kd : dict_get "description" kwargs = None)
    by (eapply no_key_get; [exact Hk|simpl; auto]).
  repeat split.
  - simpl. rewrite dict_get_update, Kn, !dict_get_set. simpl. now rewrite Hn.
  - rewrite dict_get_update, Hdv. simpl. rewrite !dict_get_set. reflexivity.
  - rewrite dict_get_update, Kd. simpl. rewrite !dict_get_set. reflexivity.
Qed.

(** C4: for a [str] name and a value of an accepted type, the generic found
    under that name after [add_generic(name, value, description)] carries
    the value and the description just passed.  A second call under the
    same name returns the record at the same position with the new value
    and description; the list keeps its length and its other entries. *)
Theorem add_generic_sets_then_updates_in_place :
  forall (self : noc_codegen_base) (s : string) (v d v' d' : pyval)
         (kw kw' : dict),
    records (generics self) = true ->
    isinstance_bool_int_intbv_str v = true ->
    isinstance_bool_int_intbv_str v' = true ->
    add_generic_kwargs kw = true -> dict_get "default_value" kw = None ->
    add_generic_kwargs kw' = true -> dict_get "default_value" kw' = None ->
    exists self1 g1 self2 g2 i,
      add_generic (PStr s) v d kw self = (self1, Ret g1)
      /\ lookup (PStr s) (generics self1) = Ret (Some g1)
      /\ getitem g1 "default_value" = Ret v
      /\ getitem g1 "description" = Ret d
      /\ add_generic (PStr s) v' d' kw' self1 = (self2, Ret g2)
      /\ lookup (PStr s) (generics self2) = Ret (Some g2)
      /\ getitem g2 "default_value" = Ret v'
      /\ getitem g2 "description" = Ret d'
      /\ List.length (generics self2) = List.length (generics self1)
      /\ nth_error (generics self1) i = Some g1
      /\ nth_error (generics self2) i = Some g2
      /\ (forall j, j <> i ->
            nth_error (generics self2) j = nth_error (generics self1) j).
Proof.
  intros self s v d v' d' kw kw' H Hv Hv' Hk Hdv Hk' Hdv'.
  destruct (add_generic_step s v d kw self H Hv Hk Hdv) as (d1 & A1 & N1 & V1 & D1).
  set (l1 := put (PStr s) (PDict d1) (generics self)) in *.
  set (self1 := set_generics l1 self) in *.
  assert (R1 : records (generics self1) = true).
  { apply records_put; [assumption|]. eapply named_is_record; eauto. }
  destruct (add_generic_step s v' d' kw' self1 R1 Hv' Hk' Hdv') as (d2 & A2 & N2 & V2 & D2).
  change (generics self1) with l1 in A2, R1.
  assert (P2 : put (PStr s) (PDict d2) l1 = set_nth (slot (PStr s) (generics self)) (PDict d2) l1)
    by (apply put_twice; assumption).
  assert (Lt : slot (PStr s) (generics self) < List.length l1).
  { apply nth_error_Some. unfold l1. rewrite nth_error_put. discriminate. }
  exists self1, (PDict d1), (set_generics (put (PStr s) (PDict d2) l1) self1),
    (PDict d2), (slot (PStr s) (generics self)).
  repeat split.
  - exact A1.
  - apply lookup_put; assumption.
  - simpl. now rewrite V1.
  - simpl. now rewrite D1.
  - exact A2.
  - simpl generics. apply lookup_put; assumption.
  - simpl. now rewrite V2.
  - simpl. now rewrite D2.
  - simpl generics. rewrite P2. apply length_set_nth.
  - apply nth_error_put.
  - simpl generics. rewrite P2. now apply nth_error_set_nth_eq.
  - intros j Hj. simpl generics. rewrite P2. apply nth_error_set_nth_neq. congruence.
Qed.

Lemma add_generic_sets_then_updates_in_place_witness :
  exists self1 g1 self2 g2 i,
    add_generic (PStr "DATA_WIDTH") (PInt 16) (PStr "wider") [] sample = (self1, Ret g1)
    /\ lookup (PStr "DATA_WIDTH") (generics self1) = Ret (Some g1)
    /\ getitem g1 "default_value" = Ret (PInt 16)
    /\ getitem g1 "description" = Ret (PStr "wider")
    /\ add_generic (PStr "DATA_WIDTH") (PIntbv 5 8) (PStr "bits") [] self1 = (self2, Ret g2)
    /\ lookup (PStr "DATA_WIDTH") (generics self2) = Ret (Some g2)
    /\ getitem g2 "default_value" = Ret (PIntbv 5 8)
    /\ getitem g2 "description" = Ret (PStr "bits")
    /\ List.length (generics self2) = List.length (generics self1)
    /\ nth_error (generics self1) i = Some g1
    /\ nth_error (generics self2) i = Some g2
    /\ (forall j, j <> i ->
          nth_error (generics self2) j = nth_error (generics self1) j).
Proof.
  apply (add_generic_sets_then_updates_in_place sample "DATA_WIDTH"
           (PInt 16) (PStr "wider") (PIntbv 5 8) (PStr "bits") [] []);
    reflexivity.
Defined.

(** ** [add_port] on well-formed ports *)

Lemma is_port_record (x : pyval) : is_port x = true -> is_record x = true.
Proof.
  destruct x as [|b|z|z n|t|l|d]; simpl; try discriminate.
  intros H. now apply andb_prop in H as [H _].
Qed.

Lemma ports_ok_records (l : list pyval) : ports_ok l = true -> records l = true.
Proof.
  unfold ports_ok, records. rewrite !forallb_forall.
  intros H x Hx. apply is_port_record. now apply H.
Qed.

Lemma is_port_inv (x : pyval) :
  is_port x = true ->
  exists d l, x = PDict d /\ dict_has "name" d = true
              /\ dict_get "signal_list" d = Some (PList l) /\ records l = true.
Proof.
  destruct x as [|b|z|z n|t|l|d]; simpl; try discriminate.
  intros H. apply andb_prop in H as [Hn Hs].
  destruct (dict_get "signal_list" d) as [[|b|z|z n|t|l|d']|] eqn:E; try discriminate.
  now exists d, l.
Qed.

Lemma bits_hold_no_string (k : string) (z : Z) (l : list nat) :
  list_contains (PStr k) (map (fun i => PBool (Z.testbit z (Z.of_nat i))) l) = false.
Proof.
  unfold list_contains. induction l as [|i l IH]; simpl; [reflexivity|exact IH].
Qed.

(** A [signal_desc] that passes the checks is [None] or a dictionary of
    class ["signal"] with a name. *)
Lemma check_signal_desc_ok (signal_desc : pyval) :
  check_signal_desc signal_desc = Ret tt ->
  signal_desc = PNone
  \/ exists sd nm, signal_desc = PDict sd /\ dict_get "name" sd = Some nm
                   /\ dict_get "class" sd = Some (PStr "signal").
Proof.
  destruct signal_desc as [|b|z|z n|t|l|d]; simpl; try discriminate; auto.
  - destruct n as [|n]; simpl; [discriminate|].
    unfold intbv_bits. rewrite !bits_hold_no_string. simpl. discriminate.
  - destruct (str_contains "class" t), (str_contains "name" t); simpl; discriminate.
  - destruct (list_contains (PStr "class") l), (list_contains (PStr "name") l);
      simpl; discriminate.
  - unfold dict_has.
    destruct (dict_get "class" d) as [c|] eqn:C; simpl; [|discriminate].
    destruct (dict_get "name" d) as [nm|] eqn:N; simpl; [|discriminate].
    unfold py_ne. destruct (py_eq c (PStr "signal")) eqn:E; simpl; [|discriminate].
    apply py_eq_str in E. subst c. intros _. right. now exists d, nm.
Qed.

Lemma merge_signal_ok (sd d : dict) (nm : pyval) (l : list pyval) :
  dict_get "name" sd = Some nm ->
  dict_get "signal_list" d = Some (PList l) ->
  records l = true ->
  merge_signal (PDict sd) (PDict d)
  = Ret (PDict (dict_set "signal_list" (PList (merged_list nm sd l)) d)).
Proof.
  intros Hn Hs Hl. unfold merge_signal. simpl. rewrite Hs, Hn. simpl.
  rewrite name_matches_records by assumption. simpl.
  unfold merged_list. rewrite <- positions_head.
  destruct (positions nm l 0) as [|j rest] eqn:P; simpl; [reflexivity|].
  assert (F : first_named nm l = Some j) by (rewrite <- positions_head, P; reflexivity).
  pose proof (first_named_nth _ _ _ F) as Hj.
  destruct (named_inv _ _ Hj) as (dj & n & -> & _ & _). reflexivity.
Qed.

Lemma signal_list_described (description : pyval) (d : dict) :
  dict_get "signal_list" (described description d) = dict_get "signal_list" d.
Proof.
  unfold described. destruct (py_ne description (PStr "")); [|reflexivity].
  now rewrite dict_get_set.
Qed.

Lemma port_body_ok (signal_desc description : pyval) (kwargs d : dict) :
  is_port (PDict d) = true ->
  check_signal_desc signal_desc = Ret tt ->
  port_body signal_desc description kwargs (PDict d)
  = (PDict (dict_update (merged signal_desc (described description d)) kwargs), None).
Proof.
  intros Hp Hc. destruct (is_port_inv _ Hp) as (d' & l & [= <-] & _ & Hs & Hl).
  unfold port_body.
  replace (if py_ne description (PStr "")
           then py_update (PDict d) (PDict [("description", description)])
           else Ret (PDict d))
    with (Ret (PDict (described description d)))
    by (unfold described; destruct (py_ne description (PStr "")); reflexivity).
  destruct (check_signal_desc_ok _ Hc) as [->|(sd & nm & -> & Hn & _)].
  - reflexivity.
  - rewrite (merge_signal_ok sd _ nm l Hn);
      [|now rewrite signal_list_described|assumption].
    unfold merged, signals_of. rewrite Hn, signal_list_described, Hs. reflexivity.
Qed.

Lemma add_port_records (s : string) (signal_desc description : pyval)
  (kwargs : dict) (self : noc_codegen_base) :
  records (ports self) = true ->
  check_signal_desc signal_desc = Ret tt ->
  add_port (PStr s) signal_desc description kwargs self
  = (set_ports
       (put (PStr s)
          (fst (port_body signal_desc description kwargs
                  (target (PStr s) (get_new_port [("name", PStr s)]) (ports self))))
          (ports self)) self,
     finish (port_body signal_desc description kwargs
               (target (PStr s) (get_new_port [("name", PStr s)]) (ports self)))).
Proof.
  intros H Hc. unfold add_port. simpl isinstance_str. simpl negb at 1. cbv iota.
  rewrite Hc.
  destruct (locate_records (PStr s) (get_new_port [("name", PStr s)]) _ H)
    as (found & N & T & P).
  rewrite N. destruct (locate found _ _) as [l i]. simpl in T, P.
  rewrite T, P. reflexivity.
Qed.

Lemma target_is_port (name fresh : pyval) (l : list pyval) :
  ports_ok l = true -> is_port fresh = true -> is_port (target name fresh l) = true.
Proof.
  intros H Hf. unfold target. destruct (first_named name l) as [i|] eqn:F; [|exact Hf].
  unfold ports_ok in H. rewrite forallb_forall in H. apply H.
  apply nth_In. eapply first_named_lt; eauto.
Qed.

Lemma add_port_step (s : string) (signal_desc description : pyval)
  (kwargs : dict) (self : noc_codegen_base) :
  ports_ok (ports self) = true ->
  check_signal_desc signal_desc = Ret tt ->
  exists d,
    target (PStr s) (get_new_port [("name", PStr s)]) (ports self) = PDict d
    /\ is_port (PDict d) = true
    /\ named (PStr s) (PDict d) = true
    /\ add_port (PStr s) signal_desc description kwargs self
       = (set_ports
            (put (PStr s)
               (PDict (dict_update (merged signal_desc (described description d)) kwargs))
               (ports self)) self,
          Ret (PDict (dict_update (merged signal_desc (described description d)) kwargs))).
Proof.
  intros H Hc.
  pose proof (target_named (PStr s) _ (ports self) (named_fresh_port s)) as Ht.
  pose proof (target_is_port (PStr s) (get_new_port [("name", PStr s)]) _ H eq_refl) as Hp.
  destruct (named_inv _ _ Ht) as (d & n & E & _ & _).
  exists d. rewrite <- E. repeat split; try assumption.
  rewrite add_port_records by (auto using ports_ok_records).
  rewrite E in *. rewrite port_body_ok by assumption. reflexivity.
Qed.

Lemma get_described (k : string) (description : pyval) (d : dict) :
  k <> "description" ->
  dict_get k (described description d) = dict_get k d.
Proof.
  intros Hk. unfold described. destruct (py_ne description (PStr "")); [|reflexivity].
  rewrite dict_get_set. apply String.eqb_neq in Hk. now rewrite Hk.
Qed.

Lemma get_merged (k : string) (signal_desc : pyval) (d : dict) :
  k <> "signal_list" ->
  dict_get k (merged signal_desc d) = dict_get k d.
Proof.
  intros Hk. unfold merged.
  destruct signal_desc as [|b|z|z n|t|l|sd]; try reflexivity.
  destruct (dict_get "name" sd); [|reflexivity].
  rewrite dict_get_set. apply String.eqb_neq in Hk. now rewrite Hk.
Qed.

Lemma named_port_result (name signal_desc description : pyval) (kwargs d : dict) :
  add_port_kwargs kwargs = true ->
  named name (PDict d) = true ->
  named name (PDict (dict_update (merged signal_desc (described description d)) kwargs))
  = true.
Proof.
  intros Hk Hn. simpl in *.
  rewrite dict_get_update, (no_key_get _ _ "name" Hk) by (simpl; auto).
  rewrite get_merged, get_described by discriminate. exact Hn.
Qed.

Lemma description_port_result (signal_desc description : pyval) (kwargs d : dict) :
  add_port_kwargs kwargs = true ->
  dict_get "description"
    (dict_update (merged signal_desc (described description d)) kwargs)
  = if py_ne description (PStr "") then Some description
    else dict_get "description" d.
Proof.
  intros Hk.
  rewrite dict_get_update, (no_key_get _ _ "description" Hk) by (simpl; auto).
  rewrite get_merged by discriminate.
  unfold described. destruct (py_ne description (PStr "")); [|reflexivity].
  now rewrite dict_get_set.
Qed.

Lemma lookup_target (name fresh p : pyval) (l : list pyval) :
  records l = true ->
  lookup name l = Ret (Some p) ->
  target name fresh l = p /\ exists i, first_named name l = Some i.
Proof.
  intros H. rewrite lookup_records by assumption. unfold target.
  destruct (first_named name l) as [i|]; simpl; [|discriminate].
  intros [= <-]. split; [reflexivity|now exists i].
Qed.

(** C5: on a port that exists, [add_port] with the empty string as
    description returns the port with the description it had, and
    [add_port] with any other description returns it with the new one.
    In both cases the call succeeds and the port is the one found under
    the name afterwards. *)
Theorem add_port_description_rule :
  forall (self : noc_codegen_base) (s : string) (signal_desc : pyval)
         (kwargs : dict) (p d0 : pyval),
    ports_ok (ports self) = true ->
    check_signal_desc signal_desc = Ret tt ->
    add_port_kwargs kwargs = true ->
    lookup (PStr s) (ports self) = Ret (Some p) ->
    getitem p "description" = Ret d0 ->
    (exists self' p',
        add_port (PStr s) signal_desc (PStr "") kwargs self = (self', Ret p')
        /\ lookup (PStr s) (ports self') = Ret (Some p')
        /\ getitem p' "description" = Ret d0)
    /\ (forall description,
          py_ne description (PStr "") = true ->
          exists self' p',
            add_port (PStr s) signal_desc description kwargs self = (self', Ret p')
            /\ lookup (PStr s) (ports self') = Ret (Some p')
            /\ getitem p' "description" = Ret description).
Proof.
  intros self s signal_desc kwargs p d0 H Hc Hk Hl Hd.
  pose proof (ports_ok_records _ H) as Hr.
  destruct (lookup_target _ (get_new_port [("name", PStr s)]) _ _ Hr Hl) as (Ht & _).
  split; [|intros description Hne].
  - destruct (add_port_step s signal_desc (PStr "") kwargs self H Hc)
      as (d & T & Hp & Hn & A).
    rewrite Ht in T. subst p. rewrite T in Hd.
    eexists _, _. split; [exact A|]. split.
    + simpl ports. apply lookup_put; [assumption|]. now apply named_port_result.
    + simpl getitem. rewrite description_port_result by assumption.
      simpl py_ne. cbv iota. exact Hd.
  - destruct (add_port_step s signal_desc description kwargs self H Hc)
      as (d & T & Hp & Hn & A).
    eexists _, _. split; [exact A|]. split.
    + simpl ports. apply lookup_put; [assumption|]. now apply named_port_result.
    + simpl getitem. rewrite description_port_result by assumption.
      now rewrite Hne.
Qed.

Lemma add_port_description_rule_witness :
  (exists self' p',
      add_port (PStr "clk_port") PNone (PStr "") [("nocport", PInt 0)] sample
      = (self', Ret p')
      /\ lookup (PStr "clk_port") (ports self') = Ret (Some p')
      /\ getitem p' "description" = Ret (PStr "clock input"))
  /\ (exists self' p',
         add_port (PStr "clk_port") clk_signal (PStr "main clock") [] sample
         = (self', Ret p')
         /\ lookup (PStr "clk_port") (ports self') = Ret (Some p')
         /\ getitem p' "description" = Ret (PStr "main clock")).
Proof.
  split.
  - apply (proj1 (add_port_description_rule sample "clk_port" PNone
                    [("nocport", PInt 0)]
                    (nth 0 (ports sample) PNone) (PStr "clock input")
                    eq_refl eq_refl eq_refl eq_refl eq_refl)).
  - apply (proj2 (add_port_description_rule sample "clk_port" clk_signal []
                    (nth 0 (ports sample) PNone) (PStr "clock input")
                    eq_refl eq_refl eq_refl eq_refl eq_refl)
             (PStr "main clock") eq_refl).
Defined.

(** ** Merging a signal into a port *)

Lemma positions_app (name : pyval) (l r : list pyval) (i : nat) :
  positions name (l ++ r) i
  = positions name l i ++ positions name r (i + List.length l).
Proof.
  revert i; induction l as [|x l IH]; intros i; simpl.
  - now rewrite Nat.add_0_r.
  - rewrite IH. replace (S i + List.length l) with (i + S (List.length l)) by lia.
    destruct (named name x); reflexivity.
Qed.

Lemma positions_set_nth (name y : pyval) (l : list pyval) (j i : nat) :
  named name y = named name (nth j l PNone) ->
  positions name (set_nth j y l) i = positions name l i.
Proof.
  revert j i; induction l as [|x l IH]; intros [|j] i H; simpl in *; auto.
  - now rewrite H.
  - now rewrite (IH j (S i) H).
Qed.

Lemma named_absorb (sn : string) (sd : dict) (x : pyval) :
  dict_get "name" sd = Some (PStr sn) ->
  is_record x = true ->
  named (PStr sn) (absorb sd x) = true.
Proof.
  intros Hn Hx. destruct (is_record_inv _ Hx) as (d & n & -> & _).
  simpl. rewrite dict_get_update, Hn. simpl. apply String.eqb_refl.
Qed.

Lemma records_nth (l : list pyval) (j : nat) :
  records l = true -> j < List.length l -> is_record (nth j l PNone) = true.
Proof.
  unfold records. rewrite forallb_forall. intros H Hj. apply H. now apply nth_In.
Qed.

(** After a merge under the name [sn], a list that held at most one signal
    of that name holds exactly one; it carries every field of the merged
    description. *)
Lemma merged_list_single (sn : string) (sd : dict) (l : list pyval) :
  records l = true ->
  dict_get "name" sd = Some (PStr sn) ->
  List.length (positions (PStr sn) l 0) <= 1 ->
  exists j dj,
    positions (PStr sn) (merged_list (PStr sn) sd l) 0 = [j]
    /\ records (merged_list (PStr sn) sd l) = true
    /\ nth_error (merged_list (PStr sn) sd l) j = Some (PDict dj)
    /\ (forall k v, dict_get k sd = Some v -> dict_get k dj = Some v).
Proof.
  intros Hl Hn Hc. unfold merged_list.
  pose proof (positions_head (PStr sn) l) as Hh.
  destruct (first_named (PStr sn) l) as [j|] eqn:F.
  - pose proof (first_named_lt _ _ _ F) as Hj.
    pose proof (records_nth _ _ Hl Hj) as Hr.
    pose proof (named_absorb sn sd _ Hn Hr) as Ha.
    destruct (is_record_inv _ Hr) as (dj & n & E & _).
    exists j, (dict_update dj sd). repeat split.
    + rewrite positions_set_nth
        by (rewrite Ha; symmetry; now apply first_named_nth).
      destruct (positions (PStr sn) l 0) as [|a [|b rest]]; simpl in *;
        try discriminate; try lia.
      now injection Hh as ->.
    + apply records_set_nth; [assumption|]. eapply named_is_record; eauto.
    + rewrite E. simpl. now apply nth_error_set_nth_eq.
    + intros k v Hk. now rewrite dict_get_update, Hk.
  - exists (List.length l), sd. repeat split.
    + rewrite positions_app. simpl.
      destruct (positions (PStr sn) l 0); [|discriminate]. simpl.
      rewrite Hn. simpl. now rewrite String.eqb_refl.
    + unfold records in *. rewrite forallb_app, Hl. simpl.
      unfold dict_has. now rewrite Hn.
    + rewrite nth_error_app2 by lia. now rewrite Nat.sub_diag.
    + auto.
Qed.

Lemma signal_list_port_result (nm description : pyval) (sd kwargs d : dict) :
  dict_get "signal_list" kwargs = None ->
  dict_get "name" sd = Some nm ->
  dict_get "signal_list"
    (dict_update (merged (PDict sd) (described description d)) kwargs)
  = Some (PList (merged_list nm sd (signals_of (PDict d)))).
Proof.
  intros Hk Hn. rewrite dict_get_update, Hk. unfold merged. rewrite Hn.
  rewrite dict_get_set. simpl String.eqb. cbv iota.
  unfold signals_of. now rewrite signal_list_described.
Qed.

Lemma ports_ok_put (name y : pyval) (l : list pyval) :
  ports_ok l = true -> is_port y = true -> ports_ok (put name y l) = true.
Proof.
  intros H Hy. unfold put, ports_ok in *. destruct (first_named name l) as [i|].
  - clear -H Hy. revert i; induction l as [|x l IH]; intros [|i]; simpl in *; auto.
    + apply andb_prop in H as [_ H]. now rewrite Hy.
    + apply andb_prop in H as [Hx H]. rewrite Hx. now apply IH.
  - rewrite forallb_app, H. simpl. now rewrite Hy.
Qed.

Lemma signals_of_port (d : dict) :
  is_port (PDict d) = true ->
  dict_get "signal_list" d = Some (PList (signals_of (PDict d)))
  /\ records (signals_of (PDict d)) = true.
Proof.
  intros H. destruct (is_port_inv _ H) as (d' & l & [= <-] & _ & Hs & Hl).
  unfold signals_of. rewrite Hs. auto.
Qed.

(** One [add_port] call that merges a signal named [sn] into the port [s]. *)
Lemma add_port_merge_step (self : noc_codegen_base) (s sn : string)
  (sd : dict) (description : pyval) (kwargs : dict) :
  ports_ok (ports self) = true ->
  check_signal_desc (PDict sd) = Ret tt ->
  dict_get "name" sd = Some (PStr sn) ->
  add_port_kwargs kwargs = true ->
  dict_get "signal_list" kwargs = None ->
  List.length
    (positions (PStr sn)
       (signals_of (target (PStr s) (get_new_port [("name", PStr s)]) (ports self)))
       0) <= 1 ->
  exists d l j dj,
    add_port (PStr s) (PDict sd) description kwargs self
    = (set_ports (put (PStr s) (PDict d) (ports self)) self, Ret (PDict d))
    /\ named (PStr s) (PDict d) = true
    /\ is_port (PDict d) = true
    /\ dict_get "signal_list" d = Some (PList l)
    /\ positions (PStr sn) l 0 = [j]
    /\ records l = true
    /\ nth_error l j = Some (PDict dj)
    /\ (forall k v, dict_get k sd = Some v -> dict_get k dj = Some v).
Proof.
  intros H Hc Hn Hk Hs Hu.
  destruct (add_port_step s (PDict sd) description kwargs self H Hc)
    as (d & T & Hp & Hnm & A).
  rewrite T in Hu.
  destruct (signals_of_port d Hp) as (Hsl & Hrl).
  destruct (merged_list_single sn sd _ Hrl Hn Hu) as (j & dj & P & R & N & F).
  pose proof (signal_list_port_result (PStr sn) description sd kwargs d Hs Hn) as S.
  eexists _, _, j, dj. split; [exact A|].
  repeat split; try eassumption.
  - now apply named_port_result.
  - pose proof (named_port_result (PStr s) (PDict sd) description kwargs d Hk Hnm) as Hn'.
    apply named_is_record in Hn'. simpl in *. rewrite Hn', S. exact R.
Qed.

(** C6: two [add_port] calls on one port, with signal descriptions of the
    same name, leave in the port's signal list exactly one signal of that
    name, and its type is the type of the second description.  (The port's
    list is assumed to hold at most one signal of that name beforehand, and
    the keyword arguments not to replace the list.) *)
Theorem add_port_twice_same_signal :
  forall (self : noc_codegen_base) (s sn : string) (sd1 sd2 : dict)
         (desc1 desc2 : pyval) (kw1 kw2 : dict) (t2 : pyval),
    ports_ok (ports self) = true ->
    check_signal_desc (PDict sd1) = Ret tt ->
    check_signal_desc (PDict sd2) = Ret tt ->
    dict_get "name" sd1 = Some (PStr sn) ->
    dict_get "name" sd2 = Some (PStr sn) ->
    dict_get "type" sd2 = Some t2 ->
    add_port_kwargs kw1 = true -> dict_get "signal_list" kw1 = None ->
    add_port_kwargs kw2 = true -> dict_get "signal_list" kw2 = None ->
    List.length
      (positions (PStr sn)
         (signals_of (target (PStr s) (get_new_port [("name", PStr s)]) (ports self)))
         0) <= 1 ->
    exists self1 p1 self2 p2 l j sig,
      add_port (PStr s) (PDict sd1) desc1 kw1 self = (self1, Ret p1)
      /\ add_port (PStr s) (PDict sd2) desc2 kw2 self1 = (self2, Ret p2)
      /\ lookup (PStr s) (ports self2) = Ret (Some p2)
      /\ getitem p2 "signal_list" = Ret (PList l)
      /\ name_matches (Ret (PStr sn)) l 0 = Ret [j]
      /\ nth_error l j = Some sig
      /\ getitem sig "type" = Ret t2.
Proof.
  intros self s sn sd1 sd2 desc1 desc2 kw1 kw2 t2
    H Hc1 Hc2 Hn1 Hn2 Ht2 Hk1 Hs1 Hk2 Hs2 Hu.
  destruct (add_port_merge_step self s sn sd1 desc1 kw1 H Hc1 Hn1 Hk1 Hs1 Hu)
    as (d1 & l1 & j1 & dj1 & A1 & N1 & P1 & S1 & Q1 & R1 & _ & _).
  set (self1 := set_ports (put (PStr s) (PDict d1) (ports self)) self) in *.
  assert (H1 : ports_ok (ports self1) = true) by (now apply ports_ok_put).
  assert (Hu1 : List.length
                  (positions (PStr sn)
                     (signals_of (target (PStr s) (get_new_port [("name", PStr s)])
                                    (ports self1))) 0) <= 1).
  { simpl ports. rewrite target_put by assumption.
    unfold signals_of. rewrite S1, Q1. simpl. lia. }
  destruct (add_port_merge_step self1 s sn sd2 desc2 kw2 H1 Hc2 Hn2 Hk2 Hs2 Hu1)
    as (d2 & l2 & j2 & dj2 & A2 & N2 & P2 & S2 & Q2 & R2 & E2 & F2).
  exists self1, (PDict d1),
    (set_ports (put (PStr s) (PDict d2) (ports self1)) self1), (PDict d2),
    l2, j2, (PDict dj2).
  repeat split.
  - exact A1.
  - exact A2.
  - simpl ports. apply lookup_put; [|assumption].
    apply ports_ok_records. exact H1.
  - simpl. now rewrite S2.
  - rewrite name_matches_records by assumption. now rewrite Q2.
  - exact E2.
  - simpl. now rewrite (F2 _ _ Ht2).
Qed.

Lemma add_port_twice_same_signal_witness :
  exists self1 p1 self2 p2 l j sig,
    add_port (PStr "data_port")
      (PDict [("class", PStr "signal"); ("name", PStr "d"); ("type", PStr "bit")])
      (PStr "data") [] sample = (self1, Ret p1)
    /\ add_port (PStr "data_port")
         (PDict [("class", PStr "signal"); ("name", PStr "d");
                 ("type", PStr "std_logic_vector")])
         (PStr "") [("type", PStr "bus")] self1 = (self2, Ret p2)
    /\ lookup (PStr "data_port") (ports self2) = Ret (Some p2)
    /\ getitem p2 "signal_list" = Ret (PList l)
    /\ name_matches (Ret (PStr "d")) l 0 = Ret [j]
    /\ nth_error l j = Some sig
    /\ getitem sig "type" = Ret (PStr "std_logic_vector").
Proof.
  apply (add_port_twice_same_signal sample "data_port" "d"
           [("class", PStr "signal"); ("name", PStr "d"); ("type", PStr "bit")]
           [("class", PStr "signal"); ("name", PStr "d");
            ("type", PStr "std_logic_vector")]
           (PStr "data") (PStr "") [] [("type", PStr "bus")]
           (PStr "std_logic_vector"));
    try reflexivity.
  vm_compute. lia.
Defined.

(** ** Strings *)

Lemma append_assoc (a b c : string) : ((a ++ b) ++ c = a ++ (b ++ c))%string.
Proof. induction a as [|x a IH]; simpl; [reflexivity|now rewrite IH]. Qed.

Lemma append_nil_r (a : string) : (a ++ "" = a)%string.
Proof. induction a as [|x a IH]; simpl; [reflexivity|now rewrite IH]. Qed.

Lemma length_append (a b : string) :
  String.length (a ++ b) = String.length a + String.length b.
Proof. induction a as [|x a IH]; simpl; [reflexivity|now rewrite IH]. Qed.

Lemma append_inv_head (a b c : string) : (a ++ b = a ++ c)%string -> b = c.
Proof.
  induction a as [|x a IH]; simpl; [auto|]. intros [= H]. auto.
Qed.

Lemma append_inv_tail (a b c : string) : (a ++ c = b ++ c)%string -> a = b.
Proof.
  revert b; induction a as [|x a IH]; intros [|y b]; simpl; intros H.
  - reflexivity.
  - apply (f_equal String.length) in H. simpl in H. rewrite length_append in H. lia.
  - apply (f_equal String.length) in H. simpl in H. rewrite length_append in H. lia.
  - injection H as -> H. f_equal. now apply IH.
Qed.

(** A change in the middle of a concatenation shows in the whole. *)
Lemma append_middle_neq (a t t' b : string) :
  t <> t' -> (a ++ t ++ b <> a ++ t' ++ b)%string.
Proof.
  intros Hne H. apply append_inv_head, append_inv_tail in H. contradiction.
Qed.

Lemma ltb_irrefl_pair (s t : string) :
  s <> t -> String.ltb s t = negb (String.ltb t s).
Proof.
  intros Hne. unfold String.ltb. rewrite (String.compare_antisym t s).
  destruct (String.compare s t) eqn:E; simpl; try reflexivity.
  apply String.compare_eq_iff in E. contradiction.
Qed.

(** ** The shape of the hash *)

Lemma mapM_app {A B : Type} (f : A -> result B) (l r : list A) :
  mapM f (l ++ r) = (xs <- mapM f l ;; ys <- mapM f r ;; Ret (xs ++ ys)).
Proof.
  induction l as [|x l IH]; simpl.
  - destruct (mapM f r); reflexivity.
  - destruct (f x); simpl; [|reflexivity].
    rewrite IH. destruct (mapM f l); simpl; [|reflexivity].
    destruct (mapM f r); reflexivity.
Qed.

Lemma mapM_set_nth_same {A B : Type} (f : A -> result B) (d : A) (i : nat)
  (y : A) (l : list A) :
  f y = f (nth i l d) -> mapM f (set_nth i y l) = mapM f l.
Proof.
  revert i; induction l as [|x l IH]; intros [|i] H; simpl in *; auto.
  - now rewrite H.
  - now rewrite (IH i H).
Qed.

Lemma set_nth_split {A : Type} (y x : A) (l1 l2 : list A) :
  set_nth (List.length l1) y (l1 ++ x :: l2) = l1 ++ y :: l2.
Proof.
  induction l1 as [|z l1 IH]; simpl; [reflexivity|now rewrite IH].
Qed.

Lemma mapM_split {A B : Type} (f : A -> result B) (l1 l2 : list A) (x : A)
  (ys : list B) :
  mapM f (l1 ++ x :: l2) = Ret ys ->
  exists b1 b b2,
    mapM f l1 = Ret b1 /\ f x = Ret b /\ mapM f l2 = Ret b2
    /\ ys = b1 ++ b :: b2.
Proof.
  rewrite mapM_app. simpl.
  destruct (mapM f l1) as [b1|]; simpl; [|discriminate].
  destruct (f x) as [b|]; simpl; [|discriminate].
  destruct (mapM f l2) as [b2|]; simpl; [|discriminate].
  intros [= <-]. now exists b1, b, b2.
Qed.

Lemma mapM_join {A B : Type} (f : A -> result B) (l1 l2 : list A) (x : A)
  (b1 b2 : list B) (b : B) :
  mapM f l1 = Ret b1 -> f x = Ret b -> mapM f l2 = Ret b2 ->
  mapM f (l1 ++ x :: l2) = Ret (b1 ++ b :: b2).
Proof.
  intros H1 Hx H2. rewrite mapM_app. simpl. now rewrite H1, Hx, H2.
Qed.

Section Hashing.
Context {RT : PyRuntime}.

Lemma add_stream_stream {A : Type} (g0 g1 : A -> pyval) (h : string) (l : list A) :
  add_stream g0 g1 h l = (h ++ stream g0 g1 l)%string.
Proof.
  unfold add_stream. revert h; induction l as [|g l IH]; intros h; simpl.
  - now rewrite append_nil_r.
  - rewrite IH. unfold piece. now rewrite !append_assoc.
Qed.

Lemma stream_app {A : Type} (g0 g1 : A -> pyval) (l r : list A) :
  stream g0 g1 (l ++ r) = (stream g0 g1 l ++ stream g0 g1 r)%string.
Proof.
  induction l as [|g l IH]; simpl; [reflexivity|].
  now rewrite IH, append_assoc.
Qed.

(** The hash is the three streams, one after the other. *)
Lemma hash_of_streams (self : noc_codegen_base) :
  hash_of self =
  (sg <- generics_stream (generics self) ;;
   sp <- ports_stream (ports self) ;;
   se <- external_signals_stream (external_signals self) ;;
   Ret (sg ++ sp ++ se)%string).
Proof.
  unfold hash_of, generics_stream, ports_stream, external_signals_stream,
    collection_stream.
  destruct (mapM hash_gen_entry (generics self)); simpl; [|reflexivity].
  destruct (mapM hash_port_entry (ports self)); simpl; [|reflexivity].
  destruct (mapM hash_ext_entry (external_signals self)); simpl; [|reflexivity].
  rewrite !add_stream_stream. simpl. now rewrite append_assoc.
Qed.

Lemma model_hash_result (self : noc_codegen_base) :
  snd (model_hash self) = hash_of self.
Proof.
  unfold model_hash. destruct (hash_of self); reflexivity.
Qed.

(** *** Sorting *)

Lemma insert_same_key {A : Type} (key : A -> pyval) (x x' : A) (s : list A) :
  key x = key x' ->
  exists s1 s2,
    insert_by_key key x s = s1 ++ x :: s2
    /\ insert_by_key key x' s = s1 ++ x' :: s2.
Proof.
  intros Hk. induction s as [|y s (s1 & s2 & E & E')]; simpl.
  - now exists [], [].
  - rewrite <- Hk. destruct (py_lt (key y) (key x)).
    + exists (y :: s1), s2. simpl. now rewrite E, E'.
    + now exists [], (y :: s).
Qed.

Lemma insert_beside {A : Type} (key : A -> pyval) (x x' y : A) (s1 s2 : list A) :
  key x = key x' ->
  exists t1 t2,
    insert_by_key key y (s1 ++ x :: s2) = t1 ++ x :: t2
    /\ insert_by_key key y (s1 ++ x' :: s2) = t1 ++ x' :: t2.
Proof.
  intros Hk. induction s1 as [|z s1 (t1 & t2 & E & E')]; simpl.
  - rewrite <- Hk. destruct (py_lt (key x) (key y)).
    + now exists [], (insert_by_key key y s2).
    + now exists [y], s2.
  - destruct (py_lt (key z) (key y)).
    + exists (z :: t1), t2. simpl. now rewrite E, E'.
    + now exists (y :: z :: s1), s2.
Qed.

(** Replacing an element by one of the same key leaves it where it was in
    the sorted list, with the same neighbours. *)
Lemma sort_same_key {A : Type} (key : A -> pyval) (x x' : A) (a1 a2 : list A) :
  key x = key x' ->
  exists s1 s2,
    sort_by_key key (a1 ++ x :: a2) = s1 ++ x :: s2
    /\ sort_by_key key (a1 ++ x' :: a2) = s1 ++ x' :: s2.
Proof.
  intros Hk. unfold sort_by_key.
  induction a1 as [|y a1 (s1 & s2 & E & E')]; simpl.
  - now apply insert_same_key.
  - rewrite E, E'. now apply insert_beside.
Qed.


End Hashing.

(** ** What the hash does not read *)

Lemma value_field_cases (k : string) :
  is_value_field k = true ->
  k = "default_value" \/ k = "current_value" \/ k = "description"
  \/ k = "type_array".
Proof.
  unfold is_value_field, value_fields. cbn [existsb].
  rewrite !orb_true_iff, !String.eqb_eq. intuition discriminate.
Qed.

Lemma getitem_retouch (k k' : string) (v : pyval) (d : dict) :
  k' <> k ->
  getitem (PDict (dict_set k v d)) k' = getitem (PDict d) k'.
Proof.
  intros H. simpl. rewrite dict_get_set.
  apply String.eqb_neq in H. now rewrite H.
Qed.

Lemma hash_gen_entry_retouch (k : string) (v x : pyval) :
  k <> "name" -> k <> "type" ->
  hash_gen_entry (retouch k v x) = hash_gen_entry x.
Proof.
  intros H1 H2. destruct x as [|b|z|z n|t|l|d]; try reflexivity.
  unfold hash_gen_entry, retouch.
  now rewrite !getitem_retouch by congruence.
Qed.

Lemma hash_port_entry_retouch (k : string) (v x : pyval) :
  k <> "name" -> k <> "type" -> k <> "signal_list" ->
  hash_port_entry (retouch k v x) = hash_port_entry x.
Proof.
  intros H1 H2 H3. destruct x as [|b|z|z n|t|l|d]; try reflexivity.
  unfold hash_port_entry, retouch.
  now rewrite !getitem_retouch by congruence.
Qed.

Lemma hash_ext_entry_retouch (k : string) (v x : pyval) :
  k <> "name" -> k <> "type" -> k <> "direction" ->
  hash_ext_entry (retouch k v x) = hash_ext_entry x.
Proof.
  intros H1 H2 H3. destruct x as [|b|z|z n|t|l|d]; try reflexivity.
  unfold hash_ext_entry, retouch.
  now rewrite !getitem_retouch by congruence.
Qed.

(** A port tuple holds the number of signals only. *)
Lemma hash_port_entry_retouch_signal (j : nat) (k : string) (v p : pyval) :
  hash_port_entry (retouch_signal j k v p) = hash_port_entry p.
Proof.
  destruct p as [|b|z|z n|t|l|d]; try reflexivity.
  unfold retouch_signal.
  destruct (dict_get "signal_list" d) as [[|b|z|z n|t|l|d']|] eqn:E; try reflexivity.
  unfold hash_port_entry.
  rewrite !getitem_retouch by discriminate.
  destruct (getitem (PDict d) "name"); [|reflexivity]. cbn [bind].
  destruct (getitem (PDict d) "type"); [|reflexivity]. cbn [bind].
  cbn [getitem]. rewrite dict_get_set, E. simpl.
  unfold retouch_at. now rewrite length_set_nth.
Qed.

Section Insensitive.
Context {RT : PyRuntime}.

Lemma hash_of_same_tuples (m1 m2 : noc_codegen_base) :
  mapM hash_gen_entry (generics m1) = mapM hash_gen_entry (generics m2) ->
  mapM hash_port_entry (ports m1) = mapM hash_port_entry (ports m2) ->
  mapM hash_ext_entry (external_signals m1)
  = mapM hash_ext_entry (external_signals m2) ->
  hash_of m1 = hash_of m2.
Proof.
  intros Hg Hp He. unfold hash_of. now rewrite Hg, Hp, He.
Qed.

Lemma hash_of_apply_edit (e : edit) (self : noc_codegen_base) :
  is_value_field (edit_key e) = true ->
  hash_of (apply_edit e self) = hash_of self.
Proof.
  intros H. apply value_field_cases in H.
  destruct e as [i k v|i k v|i k v|i j k v]; simpl in H;
    apply hash_of_same_tuples; try reflexivity; simpl; unfold retouch_at.
  - apply (mapM_set_nth_same _ PNone), hash_gen_entry_retouch;
      intuition (subst; discriminate).
  - apply (mapM_set_nth_same _ PNone), hash_port_entry_retouch;
      intuition (subst; discriminate).
  - apply (mapM_set_nth_same _ PNone), hash_ext_entry_retouch;
      intuition (subst; discriminate).
  - apply (mapM_set_nth_same _ PNone), hash_port_entry_retouch_signal.
Qed.

Lemma hash_of_apply_edits (es : list edit) (self : noc_codegen_base) :
  forallb (fun e => is_value_field (edit_key e)) es = true ->
  hash_of (apply_edits es self) = hash_of self.
Proof.
  unfold apply_edits. revert self; induction es as [|e es IH]; intros self H;
    simpl in *; [reflexivity|].
  apply andb_prop in H as [He Hes].
  rewrite IH by assumption. now apply hash_of_apply_edit.
Qed.

(** ** What a change of type does *)

Lemma collection_stream_type_change {A : Type} (f : pyval -> result A)
  (g0 g1 : A -> pyval) (l : list pyval) (i : nat) (d : dict) (t t' : pyval)
  (st : string) :
  (forall a, f (PDict d) = Ret a ->
             exists a', f (PDict (dict_set "type" t' d)) = Ret a'
                        /\ g0 a' = g0 a /\ g1 a = t /\ g1 a' = t') ->
  nth_error l i = Some (PDict d) ->
  collection_stream f g0 g1 l = Ret st ->
  exists X Y,
    st = (X ++ py_str t ++ Y)%string
    /\ collection_stream f g0 g1 (retouch_at i "type" t' l)
       = Ret (X ++ py_str t' ++ Y)%string.
Proof.
  intros Hf Hn Hs.
  destruct (nth_error_split _ _ Hn) as (l1 & l2 & -> & <-).
  unfold retouch_at. rewrite (nth_error_nth _ _ PNone Hn). simpl retouch.
  rewrite set_nth_split.
  unfold collection_stream in *.
  destruct (mapM f (l1 ++ PDict d :: l2)) as [xs|] eqn:M; simpl in Hs; [|discriminate].
  injection Hs as <-.
  destruct (mapM_split _ _ _ _ _ M) as (b1 & a & b2 & M1 & Fa & M2 & ->).
  destruct (Hf a Fa) as (a' & Fa' & K & T & T').
  rewrite (mapM_join _ _ _ _ _ _ _ M1 Fa' M2). simpl.
  destruct (sort_same_key g0 a a' b1 b2 (eq_sym K)) as (s1 & s2 & E & E').
  rewrite E, E', !stream_app. simpl. unfold piece. rewrite K, T, T'.
  exists (stream g0 g1 s1 ++ py_str (g0 a))%string, (stream g0 g1 s2).
  now rewrite !append_assoc.
Qed.

Lemma hash_gen_entry_type (d : dict) (t t' : pyval) :
  dict_get "type" d = Some t ->
  forall a, hash_gen_entry (PDict d) = Ret a ->
            exists a', hash_gen_entry (PDict (dict_set "type" t' d)) = Ret a'
                       /\ fst a' = fst a /\ snd a = t /\ snd a' = t'.
Proof.
  intros Ht a. unfold hash_gen_entry.
  rewrite getitem_retouch by discriminate.
  simpl. rewrite Ht, dict_get_set. simpl.
  destruct (dict_get "name" d); simpl; [|discriminate].
  intros [= <-]. eexists. split; [reflexivity|]. auto.
Qed.

Lemma hash_port_entry_type (d : dict) (t t' : pyval) :
  dict_get "type" d = Some t ->
  forall a, hash_port_entry (PDict d) = Ret a ->
            exists a', hash_port_entry (PDict (dict_set "type" t' d)) = Ret a'
                       /\ fst (fst a') = fst (fst a) /\ snd (fst a) = t
                       /\ snd (fst a') = t'.
Proof.
  intros Ht a. unfold hash_port_entry.
  rewrite !(getitem_retouch "type" "name"), !(getitem_retouch "type" "signal_list")
    by discriminate.
  simpl. rewrite Ht, dict_get_set. simpl.
  destruct (dict_get "name" d); simpl; [|discriminate].
  destruct (dict_get "signal_list" d) as [sl|]; simpl; [|discriminate].
  destruct (py_len sl); simpl; [|discriminate].
  intros [= <-]. eexists. split; [reflexivity|]. auto.
Qed.

Lemma hash_ext_entry_type (d : dict) (t t' : pyval) :
  dict_get "type" d = Some t ->
  forall a, hash_ext_entry (PDict d) = Ret a ->
            exists a', hash_ext_entry (PDict (dict_set "type" t' d)) = Ret a'
                       /\ fst (fst a') = fst (fst a) /\ snd (fst a) = t
                       /\ snd (fst a') = t'.
Proof.
  intros Ht a. unfold hash_ext_entry.
  rewrite !(getitem_retouch "type" "name"), !(getitem_retouch "type" "direction")
    by discriminate.
  simpl. rewrite Ht, dict_get_set. simpl.
  destruct (dict_get "name" d); simpl; [|discriminate].
  destruct (dict_get "direction" d); simpl; [|discriminate].
  intros [= <-]. eexists. split; [reflexivity|]. auto.
Qed.

Lemma type_of_inv (x t : pyval) :
  type_of x = Some t -> exists d, x = PDict d /\ dict_get "type" d = Some t.
Proof.
  destruct x as [|b|z|z n|s|l|d]; simpl; try discriminate.
  intros H. now exists d.
Qed.

Lemma hash_of_type_edit (e : edit) (self : noc_codegen_base) (x t : pyval)
  (h : string) :
  edited_record e self = Some x ->
  edit_key e = "type" ->
  type_of x = Some t ->
  py_str t <> py_str (edit_value e) ->
  hash_of self = Ret h ->
  exists h', hash_of (apply_edit e self) = Ret h' /\ h' <> h.
Proof.
  intros Hx Hk Ht Hne Hh.
  destruct (type_of_inv _ _ Ht) as (d & -> & Hd).
  rewrite hash_of_streams in Hh. rewrite hash_of_streams.
  destruct (generics_stream (generics self)) as [sg|] eqn:G; simpl in Hh; [|discriminate].
  destruct (ports_stream (ports self)) as [sp|] eqn:P; simpl in Hh; [|discriminate].
  destruct (external_signals_stream (external_signals self)) as [se|] eqn:E;
    simpl in Hh; [|discriminate].
  injection Hh as <-.
  destruct e as [i k v|i k v|i k v|i j k v]; simpl in Hx, Hk, Hne; subst k;
    try discriminate; simpl apply_edit; simpl.
  - destruct (collection_stream_type_change _ _ _ _ i d t v sg
                (hash_gen_entry_type d t v Hd) Hx G) as (X & Y & -> & G').
    unfold generics_stream. rewrite G'. simpl. rewrite P. simpl. rewrite E. simpl.
    eexists. split; [reflexivity|]. intros H.
    rewrite ?append_assoc in H. repeat apply append_inv_head in H.
    apply append_inv_tail in H. congruence.
  - destruct (collection_stream_type_change _ _ _ _ i d t v sp
                (hash_port_entry_type d t v Hd) Hx P) as (X & Y & -> & P').
    rewrite G. simpl. unfold ports_stream. rewrite P'. simpl. rewrite E. simpl.
    eexists. split; [reflexivity|]. intros H.
    rewrite ?append_assoc in H. repeat apply append_inv_head in H.
    apply append_inv_tail in H. congruence.
  - destruct (collection_stream_type_change _ _ _ _ i d t v se
                (hash_ext_entry_type d t v Hd) Hx E) as (X & Y & -> & E').
    rewrite G. simpl. rewrite P. simpl. unfold external_signals_stream.
    rewrite E'. simpl.
    eexists. split; [reflexivity|]. intros H.
    rewrite ?append_assoc in H. repeat apply append_inv_head in H.
    apply append_inv_tail in H. congruence.
Qed.

End Insensitive.

(** ** The interface hash: what it ignores, and the change of one type *)

(** C1, as the code has it.  Writing any of [default_value],
    [current_value], [description] and [type_array] in any number of
    generics, ports, external signals and signals of ports leaves the hash
    as it was.  Writing a new type in one generic, one port or one external
    signal changes the hash as soon as the string form of the type
    changes.  (Nothing is said of names: the tuples are written without
    separators, and a renamed entry can give the same string.) *)
Theorem model_hash_value_fields_and_type_change :
  forall {RT : PyRuntime} (self : noc_codegen_base),
    (forall es,
        forallb (fun e => is_value_field (edit_key e)) es = true ->
        snd (model_hash (apply_edits es self)) = snd (model_hash self))
    /\ (forall e x t h,
          edited_record e self = Some x ->
          edit_key e = "type" ->
          type_of x = Some t ->
          py_str t <> py_str (edit_value e) ->
          snd (model_hash self) = Ret h ->
          exists h', snd (model_hash (apply_edit e self)) = Ret h' /\ h' <> h).
Proof.
  intros RT self. split.
  - intros es H. rewrite !model_hash_result. now apply hash_of_apply_edits.
  - intros e x t h Hx Hk Ht Hne Hh. rewrite model_hash_result in *.
    eapply hash_of_type_edit; eauto.
Qed.

Lemma model_hash_value_fields_and_type_change_witness :
  snd (model_hash
         (apply_edits
            [EditGeneric 0 "default_value" (PInt 32);
             EditGeneric 0 "type_array" (PList [PStr "0"; PStr "DATA_WIDTH"]);
             EditExternalSignal 0 "description" (PStr "active high");
             EditPortSignal 0 0 "default_value" (PBool true);
             EditGeneric 0 "current_value" (PInt 16)]
            sample))
  = snd (model_hash sample)
  /\ exists h',
      snd (model_hash (apply_edit (EditPort 0 "type" (PStr "reset")) sample)) = Ret h'
      /\ h' <> "DATA_WIDTHintegerclk_portclockrststd_logic".
Proof.
  split.
  - apply (proj1 (model_hash_value_fields_and_type_change sample)). reflexivity.
  - apply (proj2 (model_hash_value_fields_and_type_change sample)
             (EditPort 0 "type" (PStr "reset"))
             (nth 0 (ports sample) PNone) (PStr "clock")
             "DATA_WIDTHintegerclk_portclockrststd_logic");
      try reflexivity.
    simpl. discriminate.
Defined.

(** Two objects that differ in the name of one generic and have the same
    hash: the generics [ab] and [aba] against [ba] and [aba], both written
    out as [ababa]. *)
Lemma renamed_generic_same_hash :
  renamed = apply_edit (EditGeneric 0 "name" (PStr "ba")) original
  /\ getitem (nth 0 (generics original) PNone) "name" = Ret (PStr "ab")
  /\ getitem (nth 0 (generics renamed) PNone) "name" = Ret (PStr "ba")
  /\ snd (model_hash original) = Ret "ababa"
  /\ snd (model_hash renamed) = Ret "ababa".
Proof. repeat split. Qed.

(** The same collision under every runtime: only strings are formatted and
    compared. *)
Lemma collision_in_every_runtime (RT : PyRuntime) :
  snd (model_hash original) = Ret "ababa"
  /\ snd (model_hash renamed) = Ret "ababa".
Proof.
  split; rewrite model_hash_result; unfold hash_of;
    change (mapM hash_port_entry (ports _))
      with (@Ret (list (pyval * pyval * nat)) []);
    change (mapM hash_ext_entry (external_signals _))
      with (@Ret (list (pyval * pyval * pyval)) []).
  - change (mapM hash_gen_entry (generics original))
      with (Ret [(PStr "ab", PStr ""); (PStr "aba", PStr "")]).
    cbn [bind sort_by_key fold_right insert_by_key fst snd].
    rewrite !py_lt_str.
    change ("aba" <? "ab")%string with false.
    cbn [bind add_stream fold_left fst snd].
    rewrite !py_str_str. reflexivity.
  - change (mapM hash_gen_entry (generics renamed))
      with (Ret [(PStr "ba", PStr ""); (PStr "aba", PStr "")]).
    cbn [bind sort_by_key fold_right insert_by_key fst snd].
    rewrite !py_lt_str.
    change ("aba" <? "ba")%string with true.
    cbn [bind add_stream fold_left fst snd].
    rewrite !py_str_str. reflexivity.
Qed.

(** The direction of an external signal is collected, and not written. *)
Lemma direction_not_written :
  snd (model_hash (apply_edit (EditExternalSignal 0 "direction" (PStr "out")) sample))
  = snd (model_hash sample).
Proof. reflexivity. Qed.

(** ** Two entries of different names *)




Section TwoNames.

Variables (sa sb : string) (ya yb : pyval) (l : list pyval).
Hypothesis Hne : sa <> sb.
Hypothesis Hya : named (PStr sa) ya = true.
Hypothesis Hyb : named (PStr sb) yb = true.




End TwoNames.


Lemma named_lift (name x : pyval) (F : dict -> dict) :
  (forall d, dict_get "name" (F d) = dict_get "name" d) ->
  named name (lift F x) = named name x.
Proof.
  intros HF. destruct x as [|b|z|z n|t|l|d]; try reflexivity.
  simpl. now rewrite HF.
Qed.


(** ** The three methods as find-or-create steps *)



Lemma generic_fields_name (value description : pyval) (kwargs d : dict) :
  add_generic_kwargs kwargs = true ->
  dict_get "name" (generic_fields value description kwargs d) = dict_get "name" d.
Proof.
  intros Hk. unfold generic_fields.
  rewrite dict_get_update, (no_key_get _ _ "name" Hk) by (simpl; auto).
  simpl. now rewrite !dict_get_set.
Qed.

Lemma signal_fields_name (direction value description : pyval) (kwargs d : dict) :
  add_external_signal_kwargs kwargs = true ->
  dict_get "name" (signal_fields direction value description kwargs d)
  = dict_get "name" d.
Proof.
  intros Hk. unfold signal_fields.
  rewrite dict_get_update, (no_key_get _ _ "name" Hk) by (simpl; auto).
  simpl. now rewrite !dict_get_set.
Qed.





Lemma add_generic_upsert (s : string) (value description : pyval)
  (kwargs : dict) (self : noc_codegen_base) :
  records (generics self) = true ->
  isinstance_bool_int_intbv_str value = true ->
  add_generic (PStr s) value description kwargs self
  = (set_generics
       (upsert (PStr s) (get_new_generic [("name", PStr s)])
          (generic_fields value description kwargs) (generics self)) self,
     Ret (lift (generic_fields value description kwargs)
            (target (PStr s) (get_new_generic [("name", PStr s)]) (generics self)))).
Proof.
  intros H Hv. rewrite add_generic_records by assumption.
  pose proof (target_named (PStr s) _ (generics self) (named_fresh_generic s)) as Ht.
  destruct (named_inv _ _ Ht) as (d0 & n & E & _ & _).
  unfold upsert. rewrite E. reflexivity.
Qed.

Lemma add_external_signal_upsert (s : string) (direction : pyval)
  (value : value_arg) (description : pyval) (kwargs : dict)
  (self : noc_codegen_base) :
  records (external_signals self) = true ->
  isinstance_bool_int_intbv (coerce value) = true ->
  list_contains direction [PStr "in"; PStr "out"] = true ->
  add_external_signal (PStr s) direction value description kwargs self
  = (set_external_signals
       (upsert (PStr s) (get_new_signal [("name", PStr s)])
          (signal_fields direction (coerce value) description kwargs)
          (external_signals self)) self,
     Ret (lift (signal_fields direction (coerce value) description kwargs)
            (target (PStr s) (get_new_signal [("name", PStr s)])
               (external_signals self)))).
Proof.
  intros H Hv Hd. unfold add_external_signal.
  simpl isinstance_str. simpl negb at 1. cbv iota.
  fold (coerce value). rewrite Hv. simpl negb at 1. cbv iota.
  rewrite Hd. simpl negb at 1. cbv iota.
  destruct (locate_records (PStr s) (get_new_signal [("name", PStr s)]) _ H)
    as (found & N & T & P).
  rewrite N. destruct (locate found _ _) as [l i]. simpl in T, P.
  rewrite T, P.
  pose proof (target_named (PStr s) _ (external_signals self) (named_fresh_signal s))
    as Ht.
  destruct (named_inv _ _ Ht) as (d0 & n & E & _ & _).
  unfold upsert. rewrite E. reflexivity.
Qed.

Lemma add_port_upsert (s : string) (signal_desc description : pyval)
  (kwargs : dict) (self : noc_codegen_base) :
  records (ports self) = true ->
  is_port (target (PStr s) (get_new_port [("name", PStr s)]) (ports self)) = true ->
  check_signal_desc signal_desc = Ret tt ->
  add_port (PStr s) signal_desc description kwargs self
  = (set_ports
       (upsert (PStr s) (get_new_port [("name", PStr s)])
          (port_fields signal_desc description kwargs) (ports self)) self,
     Ret (lift (port_fields signal_desc description kwargs)
            (target (PStr s) (get_new_port [("name", PStr s)]) (ports self)))).
Proof.
  intros H Hp Hc. rewrite add_port_records by assumption.
  destruct (is_port_inv _ Hp) as (d & l & E & _).
  unfold upsert. rewrite E in *. rewrite port_body_ok by assumption. reflexivity.
Qed.


(** ** The order of insertion *)

Section Order.
Context {RT : PyRuntime}.









End Order.




(** ** When the hash is a string *)

Lemma mapM_returns {A B : Type} (f : A -> result B) (l : list A) :
  (forall x, In x l -> exists y, f x = Ret y) ->
  exists ys, mapM f l = Ret ys.
Proof.
  induction l as [|x l IH]; intros H; simpl; [now exists []|].
  destruct (H x (or_introl eq_refl)) as (y & ->).
  destruct IH as (ys & ->); [intros z Hz; apply H; now right|].
  simpl. now exists (y :: ys).
Qed.

Lemma has_keys_get (keys : list string) (d : dict) (k : string) :
  has_keys keys (PDict d) = true -> In k keys ->
  exists v, dict_get k d = Some v.
Proof.
  simpl. rewrite forallb_forall. intros H Hk. specialize (H k Hk).
  unfold dict_has in H. destruct (dict_get k d) as [v|]; [now exists v|discriminate].
Qed.

Lemma has_keys_dict (keys : list string) (x : pyval) :
  has_keys keys x = true -> exists d, x = PDict d.
Proof.
  destruct x as [|b|z|z n|t|l|d]; simpl; try discriminate. intros _. now exists d.
Qed.

(** On an object whose records have the fields read, [model_hash] stores
    and returns a string. *)
Lemma model_hash_returns {RT : PyRuntime} (self : noc_codegen_base) :
  hashable self = true ->
  exists h, model_hash self = (set_interface_hash (PStr h) self, Ret h).
Proof.
  unfold hashable. rewrite !andb_true_iff, !forallb_forall.
  intros [[Hg Hp] He].
  assert (G : exists ys, mapM hash_gen_entry (generics self) = Ret ys).
  { apply mapM_returns. intros x Hx. specialize (Hg x Hx).
    destruct (has_keys_dict _ _ Hg) as (d & ->).
    destruct (has_keys_get _ d "name" Hg) as (n & Hn); [simpl; auto|].
    destruct (has_keys_get _ d "type" Hg) as (t & Ht); [simpl; auto|].
    unfold hash_gen_entry. simpl. rewrite Hn, Ht. simpl. eauto. }
  assert (P : exists ys, mapM hash_port_entry (ports self) = Ret ys).
  { apply mapM_returns. intros x Hx. specialize (Hp x Hx).
    apply andb_prop in Hp as [Hk Hs].
    destruct (has_keys_dict _ _ Hk) as (d & ->).
    destruct (has_keys_get _ d "name" Hk) as (n & Hn); [simpl; auto|].
    destruct (has_keys_get _ d "type" Hk) as (t & Ht); [simpl; auto|].
    unfold hash_port_entry. simpl in *. rewrite Hn, Ht. simpl.
    destruct (dict_get "signal_list" d) as [[|b|z|z k|s|l|d']|];
      try discriminate; simpl; eauto. }
  assert (E : exists ys, mapM hash_ext_entry (external_signals self) = Ret ys).
  { apply mapM_returns. intros x Hx. specialize (He x Hx).
    destruct (has_keys_dict _ _ He) as (d & ->).
    destruct (has_keys_get _ d "name" He) as (n & Hn); [simpl; auto|].
    destruct (has_keys_get _ d "type" He) as (t & Ht); [simpl; auto|].
    destruct (has_keys_get _ d "direction" He) as (dr & Hd); [simpl; auto|].
    unfold hash_ext_entry. simpl. rewrite Hn, Ht, Hd. simpl. eauto. }
  destruct G as (g & G), P as (q & P), E as (e & E).
  unfold model_hash, hash_of. rewrite G, P, E. simpl. eauto.
Qed.

(** The hash of an unchanged object is the same string again. *)
Lemma model_hash_again {RT : PyRuntime} (self : noc_codegen_base) :
  snd (model_hash (fst (model_hash self))) = snd (model_hash self).
Proof.
  rewrite !model_hash_result. unfold model_hash.
  destruct (hash_of self) as [h|e] eqn:H; simpl; [|exact H].
  rewrite <- H. now apply hash_of_same_tuples.
Qed.

(** * Further properties of the methods *)

(** ** Values that are refused *)

(** [add_generic] refuses every value that is no [bool], [int], [intbv] or
    [str]; [add_external_signal] refuses also a [str], reads a signal
    through its initial value, and checks the value before the direction.
    The object is left as it was. *)
Theorem unsupported_value_rejected :
  forall (s : string) (description : pyval) (kwargs : dict)
         (self : noc_codegen_base),
    (forall value,
        isinstance_bool_int_intbv_str value = false ->
        add_generic (PStr s) value description kwargs self
        = (self, Raise (TypeError_unsupported value)))
    /\ (forall direction value,
          isinstance_bool_int_intbv (coerce value) = false ->
          add_external_signal (PStr s) direction value description kwargs self
          = (self, Raise (TypeError_unsupported (coerce value))))
    /\ (forall direction t,
          add_external_signal (PStr s) direction (Plain (PStr t)) description
            kwargs self
          = (self, Raise (TypeError_unsupported (PStr t)))).
Proof.
  intros s description kwargs self.
  assert (E : forall direction value,
             isinstance_bool_int_intbv (coerce value) = false ->
             add_external_signal (PStr s) direction value description kwargs self
             = (self, Raise (TypeError_unsupported (coerce value)))).
  { intros direction value H. unfold add_external_signal.
    simpl isinstance_str. simpl negb at 1. cbv iota.
    fold (coerce value). now rewrite H. }
  split; [|split].
  - intros value H. unfold add_generic. simpl isinstance_str. simpl negb at 1.
    cbv iota. now rewrite H.
  - exact E.
  - intros direction t. now apply (E direction (Plain (PStr t))).
Qed.

Lemma unsupported_value_rejected_witness :
  add_generic (PStr "DATA_WIDTH") (PList [PInt 1]) (PStr "") [] sample
  = (sample, Raise (TypeError_unsupported (PList [PInt 1])))
  /\ add_external_signal (PStr "rst") (PStr "sideways") (SignalType PNone)
       (PStr "") [] sample
     = (sample, Raise (TypeError_unsupported PNone))
  /\ add_external_signal (PStr "rst") (PStr "in") (Plain (PStr "0"))
       (PStr "") [] sample
     = (sample, Raise (TypeError_unsupported (PStr "0"))).
Proof.
  split; [|split].
  - apply (proj1 (unsupported_value_rejected "DATA_WIDTH" (PStr "") [] sample)).
    reflexivity.
  - apply (proj1 (proj2 (unsupported_value_rejected "rst" (PStr "") [] sample))
             (PStr "sideways") (SignalType PNone)).
    reflexivity.
  - apply (proj2 (proj2 (unsupported_value_rejected "rst" (PStr "") [] sample))).
Defined.

(** ** The shape of [signal_desc] *)

Lemma check_signal_desc_error_class (signal_desc : pyval) (e : exn) :
  check_signal_desc signal_desc = Raise e -> exn_class e = TypeError.
Proof.
  destruct signal_desc as [|b|z|z n|t|l|d]; simpl; try discriminate;
    try (intros [= <-]; reflexivity).
  - destruct n as [|n]; simpl; [intros [= <-]; reflexivity|].
    unfold intbv_bits. rewrite !bits_hold_no_string. simpl.
    intros [= <-]; reflexivity.
  - destruct (str_contains "class" t), (str_contains "name" t); simpl;
      intros [= <-]; reflexivity.
  - destruct (list_contains (PStr "class") l), (list_contains (PStr "name") l);
      simpl; intros [= <-]; reflexivity.
  - unfold dict_has.
    destruct (dict_get "class" d) as [c|] eqn:C; simpl.
    + destruct (dict_get "name" d) as [nm|] eqn:N; simpl.
      * destruct (py_ne c (PStr "signal")); [intros [= <-]; reflexivity|discriminate].
      * intros [= <-]; reflexivity.
    + intros [= <-]; reflexivity.
Qed.

(** The check lets through [None] and the dictionaries that have a name
    and the class ["signal"], and nothing else: a string or a list that
    contains the two words, a number, a dictionary of another class are
    all refused with a TypeError, and [add_port] then leaves the object
    as it was. *)
Theorem signal_desc_accepted_exactly :
  forall (signal_desc : pyval),
    (check_signal_desc signal_desc = Ret tt <->
     signal_desc = PNone
     \/ exists sd nm, signal_desc = PDict sd /\ dict_get "name" sd = Some nm
                      /\ dict_get "class" sd = Some (PStr "signal"))
    /\ (forall s description kwargs self,
          check_signal_desc signal_desc <> Ret tt ->
          exists e,
            add_port (PStr s) signal_desc description kwargs self = (self, Raise e)
            /\ exn_class e = TypeError).
Proof.
  intros signal_desc. split; [split|].
  - apply check_signal_desc_ok.
  - intros [->|(sd & nm & -> & Hn & Hc)]; [reflexivity|].
    simpl. unfold dict_has. rewrite Hc, Hn. reflexivity.
  - intros s description kwargs self H. unfold add_port.
    simpl isinstance_str. simpl negb at 1. cbv iota.
    destruct (check_signal_desc signal_desc) as [[]|e] eqn:C; [congruence|].
    exists e. split; [reflexivity|]. eapply check_signal_desc_error_class; eauto.
Qed.

Lemma signal_desc_accepted_exactly_witness :
  check_signal_desc clk_signal = Ret tt
  /\ exists e,
      add_port (PStr "clk_port") (PList [PStr "class"; PStr "name"]) (PStr "x") []
        sample = (sample, Raise e)
      /\ exn_class e = TypeError.
Proof.
  split.
  - apply (proj1 (signal_desc_accepted_exactly clk_signal)). right.
    eexists _, _. repeat split.
  - apply (proj2 (signal_desc_accepted_exactly (PList [PStr "class"; PStr "name"]))).
    discriminate.
Defined.

(** ** Keyword arguments *)

Lemma target_dict (s : string) (fresh : pyval) (l : list pyval) :
  named (PStr s) fresh = true ->
  exists d, target (PStr s) fresh l = PDict d /\ named (PStr s) (PDict d) = true.
Proof.
  intros H. pose proof (target_named (PStr s) fresh l H) as Ht.
  destruct (named_inv _ _ Ht) as (d & n & E & _ & _).
  exists d. split; [exact E|]. now rewrite <- E.
Qed.



(** ** Find or create *)

Lemma upsert_keeps_others (name fresh : pyval) (F : dict -> dict)
  (l : list pyval) (j : nat) (x : pyval) :
  nth_error l j = Some x -> named name x = false ->
  nth_error (upsert name fresh F l) j = Some x.
Proof.
  intros Hj Hx. unfold upsert, put.
  destruct (first_named name l) as [i|] eqn:F'.
  - rewrite nth_error_set_nth_neq; [assumption|].
    intros ->. apply first_named_nth in F'.
    rewrite (nth_error_nth _ _ PNone Hj) in F'. congruence.
  - rewrite nth_error_app1; [assumption|]. apply nth_error_Some. congruence.
Qed.

Lemma lookup_none (name : pyval) (l : list pyval) :
  records l = true ->
  (lookup name l = Ret None <-> first_named name l = None).
Proof.
  intros H. rewrite lookup_records by assumption.
  destruct (first_named name l); simpl; split; congruence.
Qed.

Lemma upsert_facts (s : string) (fresh : pyval) (F : dict -> dict)
  (l : list pyval) :
  records l = true ->
  named (PStr s) fresh = true ->
  (forall d, dict_get "name" (F d) = dict_get "name" d) ->
  lookup (PStr s) (upsert (PStr s) fresh F l)
  = Ret (Some (lift F (target (PStr s) fresh l)))
  /\ (lookup (PStr s) l = Ret None ->
      upsert (PStr s) fresh F l = l ++ [lift F (target (PStr s) fresh l)])
  /\ (lookup (PStr s) l <> Ret None ->
      List.length (upsert (PStr s) fresh F l) = List.length l)
  /\ (forall j x, nth_error l j = Some x -> named (PStr s) x = false ->
                  nth_error (upsert (PStr s) fresh F l) j = Some x).
Proof.
  intros H Hf HF.
  assert (Hn : named (PStr s) (lift F (target (PStr s) fresh l)) = true)
    by (rewrite named_lift by assumption; now apply target_named).
  split; [|split; [|split]].
  - now apply lookup_put.
  - intros Hl. apply lookup_none in Hl; [|assumption].
    unfold upsert, put. now rewrite Hl.
  - intros Hl. rewrite lookup_none in Hl by assumption.
    unfold upsert, put. destruct (first_named (PStr s) l); [|congruence].
    apply length_set_nth.
  - intros j x. apply upsert_keeps_others.
Qed.



(** ** What a call writes *)

Lemma target_lookup (name fresh : pyval) (l : list pyval) :
  records l = true ->
  (forall p, lookup name l = Ret (Some p) -> target name fresh l = p)
  /\ (lookup name l = Ret None -> target name fresh l = fresh).
Proof.
  intros H. rewrite lookup_records by assumption. unfold target.
  destruct (first_named name l); simpl; split; congruence.
Qed.

(** [add_external_signal] followed by a lookup: the signal found under the
    name is the one returned, and it carries the direction, the value (the
    initial value, for a myhdl signal) and the description of the call. *)
Theorem add_external_signal_then_lookup :
  forall (self : noc_codegen_base) (s : string) (direction : pyval)
         (value : value_arg) (description : pyval) (kwargs : dict),
    records (external_signals self) = true ->
    isinstance_bool_int_intbv (coerce value) = true ->
    list_contains direction [PStr "in"; PStr "out"] = true ->
    add_external_signal_kwargs kwargs = true ->
    dict_get "default_value" kwargs = None ->
    exists self' g,
      add_external_signal (PStr s) direction value description kwargs self
      = (self', Ret g)
      /\ lookup (PStr s) (external_signals self') = Ret (Some g)
      /\ getitem g "direction" = Ret direction
      /\ getitem g "default_value" = Ret (coerce value)
      /\ getitem g "description" = Ret description.
Proof.
  intros self s direction value description kwargs H Hv Hd Hk Hdv.
  rewrite add_external_signal_upsert by assumption.
  destruct (upsert_facts s (get_new_signal [("name", PStr s)])
              (signal_fields direction (coerce value) description kwargs) _ H
              (named_fresh_signal s)
              (fun d => signal_fields_name direction (coerce value) description
                          kwargs d Hk))
    as (A & _).
  destruct (target_dict s _ (external_signals self) (named_fresh_signal s))
    as (d & E & _).
  rewrite E in *.
  eexists _, _. split; [reflexivity|]. split; [exact A|].
  simpl. unfold signal_fields.
  rewrite !dict_get_update, Hdv.
  rewrite (no_key_get _ _ "direction" Hk), (no_key_get _ _ "description" Hk)
    by (simpl; auto).
  simpl. auto.
Qed.

Lemma add_external_signal_then_lookup_witness :
  exists self' g,
    add_external_signal (PStr "ack") (PStr "out") (SignalType (PIntbv 0 4))
      (PStr "acknowledge") [("type", PStr "unsigned")] sample = (self', Ret g)
    /\ lookup (PStr "ack") (external_signals self') = Ret (Some g)
    /\ getitem g "direction" = Ret (PStr "out")
    /\ getitem g "default_value" = Ret (PIntbv 0 4)
    /\ getitem g "description" = Ret (PStr "acknowledge").
Proof.
  apply (add_external_signal_then_lookup sample "ack" (PStr "out")
           (SignalType (PIntbv 0 4)) (PStr "acknowledge")
           [("type", PStr "unsigned")]); reflexivity.
Defined.

(** Each method writes the fields of its own arguments and the keyword
    arguments, and no other: every other field of the returned record has
    the value it had in the record found under the name, or, for a new
    record, the value of the empty record of its kind.  [add_port] with
    [None] as [signal_desc] keeps the signal list among them. *)
Theorem only_named_fields_written :
  forall (self : noc_codegen_base) (s : string) (description : pyval)
         (kwargs : dict) (k : string),
    dict_get k kwargs = None ->
    k <> "description" ->
    (forall value,
        records (generics self) = true ->
        isinstance_bool_int_intbv_str value = true ->
        k <> "default_value" ->
        exists self' g,
          add_generic (PStr s) value description kwargs self = (self', Ret g)
          /\ (forall p, lookup (PStr s) (generics self) = Ret (Some p) ->
                        getitem g k = getitem p k)
          /\ (lookup (PStr s) (generics self) = Ret None ->
              getitem g k = getitem (get_new_generic [("name", PStr s)]) k))
    /\ (forall signal_desc,
          ports_ok (ports self) = true ->
          check_signal_desc signal_desc = Ret tt ->
          signal_desc = PNone \/ k <> "signal_list" ->
          exists self' g,
            add_port (PStr s) signal_desc description kwargs self = (self', Ret g)
            /\ (forall p, lookup (PStr s) (ports self) = Ret (Some p) ->
                          getitem g k = getitem p k)
            /\ (lookup (PStr s) (ports self) = Ret None ->
                getitem g k = getitem (get_new_port [("name", PStr s)]) k))
    /\ (forall direction value,
          records (external_signals self) = true ->
          isinstance_bool_int_intbv (coerce value) = true ->
          list_contains direction [PStr "in"; PStr "out"] = true ->
          k <> "default_value" -> k <> "direction" ->
          exists self' g,
            add_external_signal (PStr s) direction value description kwargs self
            = (self', Ret g)
            /\ (forall p, lookup (PStr s) (external_signals self) = Ret (Some p) ->
                          getitem g k = getitem p k)
            /\ (lookup (PStr s) (external_signals self) = Ret None ->
                getitem g k = getitem (get_new_signal [("name", PStr s)]) k)).
Proof.
  intros self s description kwargs k Hk Hkd.
  assert (Ed : String.eqb k "description" = false) by now apply String.eqb_neq.
  split; [|split].
  - intros value H Hv Hkv.
    assert (Ev : String.eqb k "default_value" = false) by now apply String.eqb_neq.
    rewrite add_generic_upsert by assumption.
    destruct (target_lookup (PStr s) (get_new_generic [("name", PStr s)]) _ H)
      as (L1 & L2).
    destruct (target_dict s _ (generics self) (named_fresh_generic s)) as (d & E & _).
    assert (G : getitem (lift (generic_fields value description kwargs) (PDict d)) k
                = getitem (PDict d) k).
    { simpl. unfold generic_fields. rewrite dict_get_update, Hk. simpl.
      now rewrite !dict_get_set, Ev, Ed. }
    rewrite E. eexists _, _. split; [reflexivity|]. rewrite G, <- E. split.
    + intros p Hp. now rewrite (L1 p Hp).
    + intros Hn. now rewrite (L2 Hn).
  - intros signal_desc H Hc Hs.
    pose proof (ports_ok_records _ H) as Hr.
    rewrite add_port_upsert; auto using target_is_port.
    destruct (target_lookup (PStr s) (get_new_port [("name", PStr s)]) _ Hr)
      as (L1 & L2).
    destruct (target_dict s _ (ports self) (named_fresh_port s)) as (d & E & _).
    assert (G : getitem (lift (port_fields signal_desc description kwargs) (PDict d)) k
                = getitem (PDict d) k).
    { simpl. unfold port_fields. rewrite dict_get_update, Hk.
      destruct Hs as [->|Hs].
      - simpl merged. now rewrite get_described.
      - now rewrite get_merged, get_described. }
    rewrite E. eexists _, _. split; [reflexivity|]. rewrite G, <- E. split.
    + intros p Hp. now rewrite (L1 p Hp).
    + intros Hn. now rewrite (L2 Hn).
  - intros direction value H Hv Hd Hkv Hkdir.
    assert (Ev : String.eqb k "default_value" = false) by now apply String.eqb_neq.
    assert (Er : String.eqb k "direction" = false) by now apply String.eqb_neq.
    rewrite add_external_signal_upsert by assumption.
    destruct (target_lookup (PStr s) (get_new_signal [("name", PStr s)]) _ H)
      as (L1 & L2).
    destruct (target_dict s _ (external_signals self) (named_fresh_signal s))
      as (d & E & _).
    assert (G : getitem (lift (signal_fields direction (coerce value) description
                                 kwargs) (PDict d)) k
                = getitem (PDict d) k).
    { simpl. unfold signal_fields. rewrite dict_get_update, Hk. simpl.
      now rewrite !dict_get_set, Ev, Ed, Er. }
    rewrite E. eexists _, _. split; [reflexivity|]. rewrite G, <- E. split.
    + intros p Hp. now rewrite (L1 p Hp).
    + intros Hn. now rewrite (L2 Hn).
Qed.

Lemma only_named_fields_written_witness :
  (exists self' g,
      add_generic (PStr "DATA_WIDTH") (PInt 9) (PStr "") [] sample = (self', Ret g)
      /\ (forall p, lookup (PStr "DATA_WIDTH") (generics sample) = Ret (Some p) ->
                    getitem g "type" = getitem p "type")
      /\ (lookup (PStr "DATA_WIDTH") (generics sample) = Ret None ->
          getitem g "type"
          = getitem (get_new_generic [("name", PStr "DATA_WIDTH")]) "type"))
  /\ (exists self' g,
         add_port (PStr "clk_port") PNone (PStr "again") [] sample = (self', Ret g)
         /\ (forall p, lookup (PStr "clk_port") (ports sample) = Ret (Some p) ->
                       getitem g "signal_list" = getitem p "signal_list")
         /\ (lookup (PStr "clk_port") (ports sample) = Ret None ->
             getitem g "signal_list"
             = getitem (get_new_port [("name", PStr "clk_port")]) "signal_list")).
Proof.
  split.
  - apply (proj1 (only_named_fields_written sample "DATA_WIDTH" (PStr "") []
                    "type" eq_refl ltac:(discriminate)));
      try reflexivity; discriminate.
  - apply (proj1 (proj2 (only_named_fields_written sample "clk_port" (PStr "again")
                           [] "signal_list" eq_refl ltac:(discriminate))));
      try reflexivity. now left.
Defined.

(** ** Signals of a port *)

Lemma port_signals_target (s : string) (self : noc_codegen_base) :
  records (ports self) = true ->
  port_signals (PStr s) self
  = signals_of (target (PStr s) (get_new_port [("name", PStr s)]) (ports self)).
Proof.
  intros H. unfold port_signals, target. rewrite lookup_records by assumption.
  destruct (first_named (PStr s) (ports self)); reflexivity.
Qed.

(** [add_port] with a signal description: a signal of a new name is
    appended to the port's list as it was given; a signal whose name is
    already in the list is updated where it stands, field by field (the
    fields of the description are written, the others are kept), and the
    other signals of the list do not move. *)
Theorem add_port_merges_signal :
  forall (self : noc_codegen_base) (s sn : string) (sd : dict)
         (description : pyval) (kwargs : dict),
    ports_ok (ports self) = true ->
    check_signal_desc (PDict sd) = Ret tt ->
    dict_get "name" sd = Some (PStr sn) ->
    add_port_kwargs kwargs = true ->
    dict_get "signal_list" kwargs = None ->
    exists self' p' l',
      add_port (PStr s) (PDict sd) description kwargs self = (self', Ret p')
      /\ getitem p' "signal_list" = Ret (PList l')
      /\ (lookup (PStr sn) (port_signals (PStr s) self) = Ret None ->
          l' = port_signals (PStr s) self ++ [PDict sd])
      /\ (forall old,
            lookup (PStr sn) (port_signals (PStr s) self) = Ret (Some old) ->
            exists j dold dnew,
              old = PDict dold
              /\ nth_error (port_signals (PStr s) self) j = Some old
              /\ nth_error l' j = Some (PDict dnew)
              /\ List.length l' = List.length (port_signals (PStr s) self)
              /\ (forall i, i <> j ->
                     nth_error l' i = nth_error (port_signals (PStr s) self) i)
              /\ (forall k,
                     dict_get k dnew
                     = match dict_get k sd with
                       | Some v => Some v
                       | None => dict_get k dold
                       end)).
Proof.
  intros self s sn sd description kwargs H Hc Hn Hk Hs.
  pose proof (ports_ok_records _ H) as Hr.
  destruct (add_port_step s (PDict sd) description kwargs self H Hc)
    as (d & T & Hp & Hnm & A).
  rewrite (port_signals_target s self Hr), T.
  destruct (signals_of_port d Hp) as (Hsl & Hrl).
  set (l := signals_of (PDict d)) in *.
  pose proof (signal_list_port_result (PStr sn) description sd kwargs d Hs Hn) as S.
  fold l in S.
  eexists _, _, _. split; [exact A|]. split; [unfold getitem; now rewrite S|].
  rewrite lookup_records by assumption. unfold merged_list.
  destruct (first_named (PStr sn) l) as [j|] eqn:F; simpl; split;
    try discriminate; try reflexivity.
  intros old [= <-].
  pose proof (first_named_lt _ _ _ F) as Hj.
  pose proof (records_nth _ _ Hrl Hj) as Hrec.
  destruct (is_record_inv _ Hrec) as (dj & n & E & _).
  exists j, dj, (dict_update dj sd). rewrite E. repeat split.
  - rewrite <- E. now apply nth_error_nth'.
  - simpl. now apply nth_error_set_nth_eq.
  - apply length_set_nth.
  - intros i Hi. apply nth_error_set_nth_neq. congruence.
  - intros k. apply dict_get_update.
Qed.

Lemma add_port_merges_signal_witness :
  exists self' p' l',
    add_port (PStr "clk_port")
      (PDict [("class", PStr "signal"); ("name", PStr "clk"); ("type", PStr "bit")])
      (PStr "") [] sample = (self', Ret p')
    /\ getitem p' "signal_list" = Ret (PList l')
    /\ (lookup (PStr "clk") (port_signals (PStr "clk_port") sample) = Ret None ->
        l' = port_signals (PStr "clk_port") sample
             ++ [PDict [("class", PStr "signal"); ("name", PStr "clk");
                        ("type", PStr "bit")]])
    /\ (forall old,
          lookup (PStr "clk") (port_signals (PStr "clk_port") sample)
          = Ret (Some old) ->
          exists j dold dnew,
            old = PDict dold
            /\ nth_error (port_signals (PStr "clk_port") sample) j = Some old
            /\ nth_error l' j = Some (PDict dnew)
            /\ List.length l' = List.length (port_signals (PStr "clk_port") sample)
            /\ (forall i, i <> j ->
                   nth_error l' i
                   = nth_error (port_signals (PStr "clk_port") sample) i)
            /\ (forall k,
                   dict_get k dnew
                   = match dict_get k [("class", PStr "signal");
                                       ("name", PStr "clk"); ("type", PStr "bit")]
                     with
                     | Some v => Some v
                     | None => dict_get k dold
                     end)).
Proof.
  apply (add_port_merges_signal sample "clk_port" "clk"
           [("class", PStr "signal"); ("name", PStr "clk"); ("type", PStr "bit")]
           (PStr "") []); reflexivity.
Defined.

(** ** The implementation delegate, in every case *)



(** ** When [model_hash] returns *)

Lemma mapM_ret_each {A B : Type} (f : A -> result B) (l : list A) (ys : list B) :
  mapM f l = Ret ys -> forall x, In x l -> exists y, f x = Ret y.
Proof.
  revert ys; induction l as [|a l IH]; intros ys H x Hx; simpl in *; [contradiction|].
  destruct (f a) as [b|] eqn:Fa; simpl in H; [|discriminate].
  destruct (mapM f l) as [bs|] eqn:M; simpl in H; [|discriminate].
  destruct Hx as [<-|Hx]; [now exists b|]. eapply IH; eauto.
Qed.

Lemma hash_gen_entry_keys (x : pyval) (t : pyval * pyval) :
  hash_gen_entry x = Ret t -> has_keys ["name"; "type"] x = true.
Proof.
  destruct x as [|b|z|z n|s|l|d]; try discriminate.
  unfold hash_gen_entry. simpl. unfold dict_has.
  destruct (dict_get "name" d); simpl; [|discriminate].
  destruct (dict_get "type" d); simpl; [reflexivity|discriminate].
Qed.

Lemma hash_ext_entry_keys (x : pyval) (t : pyval * pyval * pyval) :
  hash_ext_entry x = Ret t -> has_keys ["name"; "type"; "direction"] x = true.
Proof.
  destruct x as [|b|z|z n|s|l|d]; try discriminate.
  unfold hash_ext_entry. simpl. unfold dict_has.
  destruct (dict_get "name" d); simpl; [|discriminate].
  destruct (dict_get "type" d); simpl; [|discriminate].
  destruct (dict_get "direction" d); simpl; [reflexivity|discriminate].
Qed.

Lemma hash_port_entry_keys (x : pyval) (t : pyval * pyval * nat) :
  hash_port_entry x = Ret t ->
  has_keys ["name"; "type"] x && sized_signal_list x = true.
Proof.
  destruct x as [|b|z|z n|s|l|d]; try discriminate.
  unfold hash_port_entry. simpl. unfold dict_has.
  destruct (dict_get "name" d); simpl; [|discriminate].
  destruct (dict_get "type" d); simpl; [|discriminate].
  destruct (dict_get "signal_list" d) as [[|b|z|z n|s|l|d']|]; simpl;
    try discriminate; reflexivity.
Qed.

(** [model_hash] returns a string exactly when every generic has a name
    and a type, every port a name, a type and a signal list that has a
    length, and every external signal a name, a type and a direction.
    Otherwise it raises, and the cached hash stays what it was. *)
Theorem model_hash_returns_exactly_when_hashable :
  forall {RT : PyRuntime} (self : noc_codegen_base),
    ((exists h, snd (model_hash self) = Ret h) <-> hashable self = true)
    /\ (forall h, snd (model_hash self) = Ret h ->
                  fst (model_hash self) = set_interface_hash (PStr h) self)
    /\ (forall e, snd (model_hash self) = Raise e -> fst (model_hash self) = self).
Proof.
  intros RT self. split; [split|split].
  - intros (h & Hh). rewrite model_hash_result in Hh. unfold hash_of in Hh.
    destruct (mapM hash_gen_entry (generics self)) as [g|] eqn:G; simpl in Hh;
      [|discriminate].
    destruct (mapM hash_port_entry (ports self)) as [q|] eqn:P; simpl in Hh;
      [|discriminate].
    destruct (mapM hash_ext_entry (external_signals self)) as [e|] eqn:E;
      simpl in Hh; [|discriminate].
    unfold hashable. rewrite !andb_true_iff, !forallb_forall.
    repeat split; intros x Hx.
    + destruct (mapM_ret_each _ _ _ G x Hx) as (y & Hy).
      eapply hash_gen_entry_keys; eauto.
    + destruct (mapM_ret_each _ _ _ P x Hx) as (y & Hy).
      eapply hash_port_entry_keys; eauto.
    + destruct (mapM_ret_each _ _ _ E x Hx) as (y & Hy).
      eapply hash_ext_entry_keys; eauto.
  - intros H. destruct (model_hash_returns self H) as (h & Hh).
    exists h. now rewrite Hh.
  - intros h. unfold model_hash. destruct (hash_of self); simpl; congruence.
  - intros e. unfold model_hash. destruct (hash_of self); simpl; congruence.
Qed.

Lemma model_hash_returns_exactly_when_hashable_witness :
  (exists h, snd (model_hash sample) = Ret h)
  /\ fst (model_hash broken_port) = broken_port.
Proof.
  split.
  - apply (proj1 (model_hash_returns_exactly_when_hashable sample)). reflexivity.
  - apply (proj2 (proj2 (model_hash_returns_exactly_when_hashable broken_port))
             TypeError_builtin).
    reflexivity.
Defined.

(** ** The order of the entries *)

Lemma ltb_lt (a b : string) : String.ltb a b = true <-> String_as_OT.lt a b.
Proof.
  rewrite <- String_as_OT.cmp_lt. unfold String.ltb, String_as_OT.cmp.
  destruct (String.compare a b); split; congruence.
Qed.

Lemma ltb_below (a b c : string) :
  String.ltb c a = false -> String.ltb c b = true -> String.ltb a b = true.
Proof.
  intros Hca Hcb. unfold String.ltb in Hca.
  destruct (String.compare c a) eqn:E; try discriminate.
  - apply String.compare_eq_iff in E. now subst.
  - apply ltb_lt. apply String_as_OT.lt_trans with c; [|now apply ltb_lt].
    apply String_as_OT.cmp_lt. unfold String_as_OT.cmp.
    rewrite String.compare_antisym, E. reflexivity.
Qed.

Section Reordering.
Context {RT : PyRuntime}.

Lemma insert_by_key_comm {A : Type} (key : A -> pyval) (x y : A) (l : list A) :
  str_keyed key x -> str_keyed key y -> key x <> key y ->
  Forall (str_keyed key) l ->
  insert_by_key key x (insert_by_key key y l)
  = insert_by_key key y (insert_by_key key x l).
Proof.
  intros (sx & Kx) (sy & Ky) Hne Hl.
  assert (Hs : sx <> sy) by congruence.
  induction Hl as [|z l (sz & Kz) Hl IH]; simpl.
  - rewrite Kx, Ky, !py_lt_str, (ltb_irrefl_pair sx sy Hs).
    destruct (String.ltb sy sx); reflexivity.
  - rewrite Kx, Ky, Kz, !py_lt_str.
    destruct (String.ltb sz sy) eqn:Zy, (String.ltb sz sx) eqn:Zx; simpl;
      rewrite ?Kx, ?Ky, ?Kz, ?py_lt_str, ?Zx, ?Zy.
    + f_equal. exact IH.
    + now rewrite (ltb_below _ _ _ Zx Zy).
    + now rewrite (ltb_below _ _ _ Zy Zx).
    + rewrite (ltb_irrefl_pair sx sy Hs).
      destruct (String.ltb sy sx); reflexivity.
Qed.

Lemma insert_by_key_perm {A : Type} (key : A -> pyval) (x : A) (l : list A) :
  Permutation (insert_by_key key x l) (x :: l).
Proof.
  induction l as [|y l IH]; simpl; [reflexivity|].
  destruct (py_lt (key y) (key x)); [|reflexivity].
  rewrite IH. apply perm_swap.
Qed.

(** The sorted list holds the same tuples. *)
Lemma sort_by_key_perm {A : Type} (key : A -> pyval) (l : list A) :
  Permutation (sort_by_key key l) l.
Proof.
  unfold sort_by_key. induction l as [|x l IH]; simpl; [reflexivity|].
  rewrite insert_by_key_perm. now constructor.
Qed.

(** With distinct string keys the sorted list does not depend on the order
    of the list that is sorted. *)
Lemma sort_by_key_order_free {A : Type} (key : A -> pyval) (l l' : list A) :
  Permutation l l' ->
  Forall (str_keyed key) l -> NoDup (map key l) ->
  sort_by_key key l = sort_by_key key l'.
Proof.
  unfold sort_by_key.
  induction 1 as [|x l l' P IH|x y l|l l' l'' P IH P' IH']; intros Hk Hn; simpl.
  - reflexivity.
  - inversion Hk; subst. inversion Hn; subst. now rewrite IH.
  - inversion Hk as [|? ? Ky Hk']; subst. inversion Hk' as [|? ? Kx Hk'']; subst.
    inversion Hn as [|? ? Ny Hn']; subst.
    apply insert_by_key_comm; try assumption.
    + intros E. apply Ny. simpl. now left.
    + eapply Permutation_Forall; [|exact Hk''].
      symmetry. apply (sort_by_key_perm key l).
  - rewrite IH by assumption. apply IH'.
    + eapply Permutation_Forall; eauto.
    + eapply Permutation_NoDup; [|exact Hn]. now apply Permutation_map.
Qed.

Lemma mapM_perm {A B : Type} (f : A -> result B) (l l' : list A) :
  Permutation l l' ->
  forall ys, mapM f l = Ret ys ->
             exists ys', mapM f l' = Ret ys' /\ Permutation ys ys'.
Proof.
  induction 1 as [|x l l' P IH|x y l|l l' l'' P IH P' IH']; intros ys H; simpl in *.
  - exists ys. split; [assumption|]. injection H as <-. constructor.
  - destruct (f x) as [b|]; simpl in *; [|discriminate].
    destruct (mapM f l) as [bs|]; simpl in *; [|discriminate].
    injection H as <-. destruct (IH bs eq_refl) as (bs' & -> & Hp).
    simpl. exists (b :: bs'). split; [reflexivity|now constructor].
  - destruct (f y) as [b|]; simpl in *; [|discriminate].
    destruct (f x) as [c|]; simpl in *; [|discriminate].
    destruct (mapM f l) as [bs|]; simpl in *; [|discriminate].
    injection H as <-. exists (c :: b :: bs). split; [reflexivity|apply perm_swap].
  - destruct (IH ys H) as (ys' & H' & Hp).
    destruct (IH' ys' H') as (ys'' & H'' & Hp').
    exists ys''. split; [assumption|]. now transitivity ys'.
Qed.

Lemma NoDup_map_inj {A B : Type} (f : A -> B) (l : list A) :
  (forall a b, f a = f b -> a = b) -> NoDup l -> NoDup (map f l).
Proof.
  intros Hf. induction 1 as [|x l Hx Hl IH]; simpl; constructor; [|assumption].
  intros Hin. apply in_map_iff in Hin as (y & E & Hy).
  apply Hf in E. now subst.
Qed.

Lemma nodupb_NoDup (l : list string) : nodupb l = true -> NoDup l.
Proof.
  induction l as [|s l IH]; simpl; intros H; constructor.
  - apply andb_prop in H as [H _]. intros Hin.
    rewrite negb_true_iff in H.
    assert (E : existsb (String.eqb s) l = true)
      by (apply existsb_exists; exists s; split; [assumption|apply String.eqb_refl]).
    congruence.
  - apply andb_prop in H as [_ H]. now apply IH.
Qed.

(** The tuples of a collection with string names have these names as keys. *)
Lemma tuples_keys {A : Type} (f : pyval -> result A) (key : A -> pyval)
  (l : list pyval) (ns : list string) (ys : list A) :
  (forall x t, f x = Ret t -> getitem x "name" = Ret (key t)) ->
  str_names l = Some ns ->
  mapM f l = Ret ys ->
  map key ys = map PStr ns.
Proof.
  intros Hf. revert ns ys; induction l as [|x l IH]; intros ns ys Hn H; simpl in *.
  - injection Hn as <-. injection H as <-. reflexivity.
  - destruct (str_name x) as [s|] eqn:Sx; [|discriminate].
    destruct (str_names l) as [ns'|]; [|discriminate]. injection Hn as <-.
    destruct (f x) as [t|] eqn:Fx; simpl in H; [|discriminate].
    destruct (mapM f l) as [ts|]; simpl in H; [|discriminate]. injection H as <-.
    simpl. rewrite (IH ns' ts eq_refl eq_refl). f_equal.
    apply Hf in Fx. destruct x as [|b|z|z n|u|m|d]; try discriminate.
    simpl in Sx, Fx.
    destruct (dict_get "name" d) as [[|b|z|z n|u|m|d']|]; try discriminate.
    injection Sx as <-. now injection Fx as <-.
Qed.

Lemma collection_stream_order_free {A : Type} (f : pyval -> result A)
  (g0 g1 : A -> pyval) (l l' : list pyval) (st : string) :
  (forall x t, f x = Ret t -> getitem x "name" = Ret (g0 t)) ->
  Permutation l l' ->
  distinct_names l = true ->
  collection_stream f g0 g1 l = Ret st ->
  collection_stream f g0 g1 l' = Ret st.
Proof.
  intros Hf P Hd. unfold collection_stream, distinct_names in *.
  destruct (str_names l) as [ns|] eqn:N; [|discriminate].
  destruct (mapM f l) as [ys|] eqn:M; simpl; [|discriminate].
  intros [= <-].
  destruct (mapM_perm f l l' P ys M) as (ys' & -> & Pys). simpl.
  pose proof (tuples_keys f g0 l ns ys Hf N M) as K.
  rewrite (sort_by_key_order_free g0 ys ys' Pys); [reflexivity| |].
  - apply Forall_forall. intros t Ht.
    apply (in_map g0) in Ht. rewrite K in Ht. apply in_map_iff in Ht.
    destruct Ht as (s & E & _). now exists s.
  - rewrite K. apply NoDup_map_inj; [|now apply nodupb_NoDup].
    intros a b [= E]. exact E.
Qed.

Lemma hash_gen_entry_name (x : pyval) (t : pyval * pyval) :
  hash_gen_entry x = Ret t -> getitem x "name" = Ret (fst t).
Proof.
  unfold hash_gen_entry. destruct (getitem x "name") as [n|]; simpl; [|discriminate].
  destruct (getitem x "type"); simpl; [|discriminate]. now intros [= <-].
Qed.

Lemma hash_port_entry_name (x : pyval) (t : pyval * pyval * nat) :
  hash_port_entry x = Ret t -> getitem x "name" = Ret (fst (fst t)).
Proof.
  unfold hash_port_entry. destruct (getitem x "name") as [n|]; simpl; [|discriminate].
  destruct (getitem x "type"); simpl; [|discriminate].
  destruct (getitem x "signal_list") as [sl|]; simpl; [|discriminate].
  destruct (py_len sl); simpl; [|discriminate]. now intros [= <-].
Qed.

Lemma hash_ext_entry_name (x : pyval) (t : pyval * pyval * pyval) :
  hash_ext_entry x = Ret t -> getitem x "name" = Ret (fst (fst t)).
Proof.
  unfold hash_ext_entry. destruct (getitem x "name") as [n|]; simpl; [|discriminate].
  destruct (getitem x "type"); simpl; [|discriminate].
  destruct (getitem x "direction"); simpl; [|discriminate]. now intros [= <-].
Qed.

(** The hash of an object does not depend on the order in which its
    generics, its ports and its external signals are stored, as long as
    the names within each collection are distinct strings: any
    rearrangement of the three lists gives the same string. *)
Theorem model_hash_order_of_entries :
  forall (m1 m2 : noc_codegen_base) (h : string),
    Permutation (generics m1) (generics m2) ->
    Permutation (ports m1) (ports m2) ->
    Permutation (external_signals m1) (external_signals m2) ->
    names_ok m1 = true ->
    snd (model_hash m1) = Ret h ->
    snd (model_hash m2) = Ret h.
Proof.
  intros m1 m2 h Pg Pp Pe Hn. rewrite !model_hash_result, !hash_of_streams.
  unfold names_ok in Hn. apply andb_prop in Hn as [Hn He].
  apply andb_prop in Hn as [Hg Hp].
  destruct (generics_stream (generics m1)) as [sg|] eqn:G; simpl; [|discriminate].
  destruct (ports_stream (ports m1)) as [sp|] eqn:P; simpl; [|discriminate].
  destruct (external_signals_stream (external_signals m1)) as [se|] eqn:E;
    simpl; [|discriminate].
  intros [= <-].
  unfold generics_stream, ports_stream, external_signals_stream in *.
  rewrite (collection_stream_order_free _ _ _ _ _ sg hash_gen_entry_name Pg Hg G).
  simpl.
  rewrite (collection_stream_order_free _ _ _ _ _ sp hash_port_entry_name Pp Hp P).
  simpl.
  rewrite (collection_stream_order_free _ _ _ _ _ se hash_ext_entry_name Pe He E).
  reflexivity.
Qed.

End Reordering.

Lemma model_hash_order_of_entries_witness :
  snd (model_hash (set_generics (rev (generics sample2)) sample2))
  = Ret "ADDR_WIDTHnaturalDATA_WIDTHintegerclk_portclockrststd_logic".
Proof.
  apply (model_hash_order_of_entries sample2
           (set_generics (rev (generics sample2)) sample2)).
  - apply Permutation_rev.
  - apply Permutation_refl.
  - apply Permutation_refl.
  - reflexivity.
  - reflexivity.
Defined.

(** ** Updating an entry and the hash *)

Section Updating.
Context {RT : PyRuntime}.



Lemma streams_of_hash (self : noc_codegen_base) (h : string) :
  hash_of self = Ret h ->
  exists sg sp se,
    generics_stream (generics self) = Ret sg
    /\ ports_stream (ports self) = Ret sp
    /\ external_signals_stream (external_signals self) = Ret se
    /\ h = (sg ++ sp ++ se)%string.
Proof.
  rewrite hash_of_streams.
  destruct (generics_stream (generics self)) as [sg|]; simpl; [|discriminate].
  destruct (ports_stream (ports self)) as [sp|]; simpl; [|discriminate].
  destruct (external_signals_stream (external_signals self)) as [se|]; simpl;
    [|discriminate].
  intros [= <-]. now exists sg, sp, se.
Qed.




End Updating.


(** ** Names stay distinct *)

Lemma named_str_name (x : pyval) (s t : string) :
  str_name x = Some t -> named (PStr s) x = String.eqb t s.
Proof.
  destruct x as [|b|z|z n|u|l|d]; simpl; try discriminate.
  destruct (dict_get "name" d) as [[|b|z|z n|u|l|d']|]; try discriminate.
  now intros [= ->].
Qed.

Lemma str_names_records (l : list pyval) (ns : list string) :
  str_names l = Some ns -> records l = true.
Proof.
  revert ns; induction l as [|x l IH]; intros ns H; simpl in *; [reflexivity|].
  destruct (str_name x) as [s|] eqn:S; [|discriminate].
  destruct (str_names l) as [ns'|]; [|discriminate].
  rewrite (IH ns' eq_refl), andb_true_r.
  destruct x as [|b|z|z n|u|m|d]; simpl in *; try discriminate.
  unfold dict_has. destruct (dict_get "name" d); [reflexivity|discriminate].
Qed.

Lemma distinct_names_records (l : list pyval) :
  distinct_names l = true -> records l = true.
Proof.
  unfold distinct_names. destruct (str_names l) as [ns|] eqn:N; [|discriminate].
  intros _. eapply str_names_records; eauto.
Qed.

Lemma str_names_set_nth (l : list pyval) (ns : list string) (i : nat) (y : pyval) :
  str_names l = Some ns ->
  i < List.length l ->
  str_name y = str_name (nth i l PNone) ->
  str_names (set_nth i y l) = Some ns.
Proof.
  revert ns i; induction l as [|x l IH]; intros ns [|i] H Hi Hy; simpl in *; try lia.
  - now rewrite Hy.
  - destruct (str_name x); [|discriminate].
    destruct (str_names l) as [ns'|] eqn:N; [|discriminate].
    rewrite (IH ns' i eq_refl) by (assumption || lia). exact H.
Qed.

Lemma str_names_app (l : list pyval) (ns : list string) (y : pyval) (s : string) :
  str_names l = Some ns -> str_name y = Some s ->
  str_names (l ++ [y]) = Some (ns ++ [s]).
Proof.
  revert ns; induction l as [|x l IH]; intros ns H Hy; simpl in *.
  - injection H as <-. now rewrite Hy.
  - destruct (str_name x); [|discriminate].
    destruct (str_names l) as [ns'|]; [|discriminate].
    injection H as <-. now rewrite (IH ns' eq_refl Hy).
Qed.

Lemma absent_name (l : list pyval) (ns : list string) (s : string) :
  str_names l = Some ns -> first_named (PStr s) l = None ->
  existsb (fun t => String.eqb t s) ns = false.
Proof.
  revert ns; induction l as [|x l IH]; intros ns H F; simpl in *.
  - now injection H as <-.
  - destruct (str_name x) as [t|] eqn:S; [|discriminate].
    destruct (str_names l) as [ns'|]; [|discriminate]. injection H as <-.
    rewrite (named_str_name x s t S) in F. simpl.
    destruct (String.eqb t s); [discriminate|].
    destruct (first_named (PStr s) l); [discriminate|]. now apply IH.
Qed.

Lemma nodupb_app_last (ns : list string) (s : string) :
  nodupb ns = true -> existsb (fun t => String.eqb t s) ns = false ->
  nodupb (ns ++ [s]) = true.
Proof.
  induction ns as [|t ns IH]; simpl; intros H E; [reflexivity|].
  apply andb_prop in H as [Ht Hns]. apply orb_false_elim in E as [Ets E].
  rewrite IH by assumption. rewrite existsb_app. simpl.
  rewrite negb_true_iff in Ht. now rewrite Ht, Ets.
Qed.

Lemma distinct_names_put (l : list pyval) (s : string) (y : pyval) :
  distinct_names l = true -> str_name y = Some s ->
  distinct_names (put (PStr s) y l) = true.
Proof.
  unfold distinct_names. destruct (str_names l) as [ns|] eqn:N; [|discriminate].
  intros Hd Hy. unfold put.
  destruct (first_named (PStr s) l) as [i|] eqn:F.
  - pose proof (first_named_lt _ _ _ F) as Hi.
    pose proof (first_named_nth _ _ _ F) as Hn.
    assert (Hs : str_name (nth i l PNone) = Some s).
    { pose proof (str_names_records _ _ N) as Hr.
      pose proof (records_nth _ _ Hr Hi) as Hrec.
      assert (exists t, str_name (nth i l PNone) = Some t) as (t & Ht).
      { clear -N Hi. revert ns i N Hi; induction l as [|x l IH];
          intros ns [|i] N Hi; simpl in *; try lia.
        - destruct (str_name x) as [t|]; [now exists t|discriminate].
        - destruct (str_name x); [|discriminate].
          destruct (str_names l) as [ns'|] eqn:N'; [|discriminate].
          apply (IH ns' i eq_refl). lia. }
      rewrite (named_str_name _ s t Ht) in Hn. apply String.eqb_eq in Hn.
      now subst. }
    rewrite (str_names_set_nth l ns i y N Hi); [assumption|congruence].
  - rewrite (str_names_app l ns y s N Hy).
    apply nodupb_app_last; [assumption|]. eapply absent_name; eauto.
Qed.

Lemma str_name_named (s : string) (d : dict) :
  named (PStr s) (PDict d) = true -> str_name (PDict d) = Some s.
Proof.
  intros H. destruct (named_inv _ _ H) as (d' & n & [= <-] & Hn & E).
  apply py_eq_str in E. subst n. simpl. now rewrite Hn.
Qed.

Lemma merge_signal_shape (signal_desc : pyval) (d : dict) (p : pyval) :
  merge_signal signal_desc (PDict d) = Ret p ->
  exists l, p = PDict (dict_set "signal_list" (PList l) d).
Proof.
  unfold merge_signal.
  destruct (getitem (PDict d) "signal_list") as [sl|]; simpl; [|discriminate].
  destruct sl as [|b|z|z n|t|l|d']; simpl; try discriminate.
  - destruct n; simpl; [discriminate|].
    destruct (name_matches _ _ 0) as [[|j r]|]; simpl; discriminate.
  - destruct (name_matches _ _ 0) as [[|j r]|]; simpl; discriminate.
  - destruct (name_matches _ l 0) as [[|j r]|]; simpl; try discriminate.
    + intros [= <-]. eauto.
    + destruct (py_update _ _); simpl; [|discriminate]. intros [= <-]. eauto.
  - destruct (name_matches _ _ 0) as [[|j r]|]; simpl; discriminate.
Qed.

(** Whatever happens in its body, [add_port] leaves under the name a
    dictionary with the name it had. *)
Lemma port_body_keeps_name (signal_desc description : pyval) (kwargs d : dict) :
  add_port_kwargs kwargs = true ->
  exists d', fst (port_body signal_desc description kwargs (PDict d)) = PDict d'
             /\ dict_get "name" d' = dict_get "name" d.
Proof.
  intros Hk. unfold port_body.
  replace (if py_ne description (PStr "")
           then py_update (PDict d) (PDict [("description", description)])
           else Ret (PDict d))
    with (Ret (PDict (described description d)))
    by (unfold described; destruct (py_ne description (PStr "")); reflexivity).
  assert (Hd : dict_get "name" (described description d) = dict_get "name" d)
    by (now apply get_described).
  assert (Hkw : forall d0, dict_get "name" (dict_update d0 kwargs) = dict_get "name" d0).
  { intros d0. now rewrite dict_get_update, (no_key_get _ _ "name" Hk) by (simpl; auto). }
  destruct signal_desc as [|b|z|z n|t|l|sd];
    try (simpl; eexists; split; [reflexivity|]; now rewrite Hkw);
    destruct (merge_signal _ (PDict (described description d))) as [p2|e] eqn:M;
    try (simpl; eexists; split; [reflexivity|]; exact Hd);
    destruct (merge_signal_shape _ _ _ M) as (l0 & ->); simpl;
    eexists; (split; [reflexivity|]); rewrite Hkw, dict_get_set; exact Hd.
Qed.

Lemma names_kept_by_add_generic (name value description : pyval) (kwargs : dict)
  (self : noc_codegen_base) :
  add_generic_kwargs kwargs = true ->
  distinct_names (generics self) = true ->
  distinct_names (generics (fst (add_generic name value description kwargs self)))
  = true.
Proof.
  intros Hk Hd.
  destruct name as [|b|z|z n|s|l|d]; try exact Hd.
  destruct (isinstance_bool_int_intbv_str value) eqn:Hv.
  - rewrite add_generic_upsert by (auto using distinct_names_records).
    simpl. apply distinct_names_put; [assumption|].
    destruct (target_dict s _ (generics self) (named_fresh_generic s))
      as (d0 & -> & Hn).
    simpl lift. apply str_name_named. simpl.
    rewrite generic_fields_name by assumption. exact Hn.
  - unfold add_generic. simpl isinstance_str. simpl negb at 1. cbv iota.
    rewrite Hv. exact Hd.
Qed.

Lemma names_kept_by_add_external_signal (name direction : pyval)
  (value : value_arg) (description : pyval) (kwargs : dict)
  (self : noc_codegen_base) :
  add_external_signal_kwargs kwargs = true ->
  distinct_names (external_signals self) = true ->
  distinct_names
    (external_signals
       (fst (add_external_signal name direction value description kwargs self)))
  = true.
Proof.
  intros Hk Hd.
  destruct name as [|b|z|z n|s|l|d]; try exact Hd.
  destruct (isinstance_bool_int_intbv (coerce value)) eqn:Hv;
    [destruct (list_contains direction [PStr "in"; PStr "out"]) eqn:Hdir|].
  - rewrite add_external_signal_upsert by (auto using distinct_names_records).
    simpl. apply distinct_names_put; [assumption|].
    destruct (target_dict s _ (external_signals self) (named_fresh_signal s))
      as (d0 & -> & Hn).
    simpl lift. apply str_name_named. simpl.
    rewrite signal_fields_name by assumption. exact Hn.
  - unfold add_external_signal. simpl isinstance_str. simpl negb at 1. cbv iota.
    fold (coerce value). rewrite Hv, Hdir. exact Hd.
  - unfold add_external_signal. simpl isinstance_str. simpl negb at 1. cbv iota.
    fold (coerce value). rewrite Hv. exact Hd.
Qed.

Lemma names_kept_by_add_port (name signal_desc description : pyval)
  (kwargs : dict) (self : noc_codegen_base) :
  add_port_kwargs kwargs = true ->
  distinct_names (ports self) = true ->
  distinct_names (ports (fst (add_port name signal_desc description kwargs self)))
  = true.
Proof.
  intros Hk Hd.
  destruct name as [|b|z|z n|s|l|d]; try exact Hd.
  destruct (check_signal_desc signal_desc) as [[]|e] eqn:Hc.
  - rewrite add_port_records by (auto using distinct_names_records).
    simpl. apply distinct_names_put; [assumption|].
    destruct (target_dict s _ (ports self) (named_fresh_port s)) as (d0 & -> & Hn).
    destruct (port_body_keeps_name signal_desc description kwargs d0 Hk)
      as (d' & -> & E).
    apply str_name_named. simpl in *. now rewrite E.
  - unfold add_port. simpl isinstance_str. simpl negb at 1. cbv iota.
    rewrite Hc. exact Hd.
Qed.

Lemma add_generic_frame (name value description : pyval) (kwargs : dict)
  (self : noc_codegen_base) :
  ports (fst (add_generic name value description kwargs self)) = ports self
  /\ external_signals (fst (add_generic name value description kwargs self))
     = external_signals self.
Proof.
  unfold add_generic.
  destruct (negb (isinstance_str name)); [auto|].
  destruct (negb (isinstance_bool_int_intbv_str value)); [auto|].
  destruct (name_matches _ _ 0); [|auto].
  destruct (locate _ _ _). auto.
Qed.

Lemma add_port_frame (name signal_desc description : pyval) (kwargs : dict)
  (self : noc_codegen_base) :
  generics (fst (add_port name signal_desc description kwargs self)) = generics self
  /\ external_signals (fst (add_port name signal_desc description kwargs self))
     = external_signals self.
Proof.
  unfold add_port.
  destruct (negb (isinstance_str name)); [auto|].
  destruct (check_signal_desc signal_desc); [|auto].
  destruct (name_matches _ _ 0); [|auto].
  destruct (locate _ _ _). auto.
Qed.

Lemma add_external_signal_frame (name direction : pyval) (value : value_arg)
  (description : pyval) (kwargs : dict) (self : noc_codegen_base) :
  generics (fst (add_external_signal name direction value description kwargs self))
  = generics self
  /\ ports (fst (add_external_signal name direction value description kwargs self))
     = ports self.
Proof.
  unfold add_external_signal.
  destruct (negb (isinstance_str name)); [auto|].
  destruct (negb (isinstance_bool_int_intbv _)); [auto|].
  destruct (negb (list_contains direction _)); [auto|].
  destruct (name_matches _ _ 0); [|auto].
  destruct (locate _ _ _). auto.
Qed.

(** From a new object on, and through any sequence of calls of the three
    methods, whether they return or raise, every generic, port and
    external signal is a record named by a string, and no two entries of
    one collection have the same name. *)
Theorem names_stay_distinct :
  forall (cs : list call) (self : noc_codegen_base),
    names_ok self = true ->
    forallb call_kwargs_ok cs = true ->
    names_ok (run_calls cs self) = true.
Proof.
  unfold run_calls.
  induction cs as [|c cs IH]; intros self Hn Hk; simpl in *; [assumption|].
  apply andb_prop in Hk as [Hc Hk]. apply IH; [|assumption].
  unfold names_ok in *. apply andb_prop in Hn as [Hn He].
  apply andb_prop in Hn as [Hg Hp].
  destruct c as [n v d kw|n sd d kw|n dir v d kw]; simpl in *.
  - destruct (add_generic_frame n v d kw self) as (-> & ->).
    now rewrite names_kept_by_add_generic, Hp, He.
  - destruct (add_port_frame n sd d kw self) as (-> & ->).
    now rewrite names_kept_by_add_port, Hg, He.
  - destruct (add_external_signal_frame n dir v d kw self) as (-> & ->).
    now rewrite names_kept_by_add_external_signal, Hg, Hp.
Qed.

Lemma names_stay_distinct_witness :
  names_ok
    (run_calls
       [Call_add_generic (PStr "W") (PInt 8) (PStr "") [];
        Call_add_generic (PStr "W") (PInt 9) (PStr "again") [("type", PStr "integer")];
        Call_add_generic (PInt 3) (PInt 9) (PStr "") [];
        Call_add_port (PStr "p") clk_signal (PStr "") [("signal_list", PNone)];
        Call_add_port (PStr "p") clk_signal (PStr "late failure") [];
        Call_add_external_signal (PStr "rst") (PStr "IN") (Plain (PInt 0)) (PStr "") [];
        Call_add_external_signal (PStr "rst") (PStr "in") (Plain (PInt 0)) (PStr "") []]
       (__init__ bare_subject))
  = true.
Proof.
  apply names_stay_distinct; reflexivity.
Defined.

(** ** The hash, written out *)

Lemma ltb_asym (a b : string) : String.ltb a b = true -> String.ltb b a = false.
Proof.
  intros H. destruct (string_dec a b) as [->|Hne].
  - unfold String.ltb in *.
    destruct (String.compare b b) eqn:E; try discriminate.
    pose proof (String.compare_antisym b b) as C. rewrite E in C. discriminate.
  - rewrite (ltb_irrefl_pair b a) by congruence. now rewrite H.
Qed.

Section Canonical.
Context {RT : PyRuntime}.

Lemma HdRel_insert {A : Type} (key : A -> pyval) (x y : A) (l : list A) :
  not_below key y x -> HdRel (not_below key) y l ->
  HdRel (not_below key) y (insert_by_key key x l).
Proof.
  intros Hx Hl. destruct l as [|z l]; simpl; [now constructor|].
  destruct (py_lt (key z) (key x)); constructor; [|assumption].
  now inversion Hl.
Qed.

Lemma insert_by_key_sorted {A : Type} (key : A -> pyval) (x : A) (l : list A) :
  str_keyed key x -> Forall (str_keyed key) l ->
  Sorted (not_below key) l ->
  Sorted (not_below key) (insert_by_key key x l).
Proof.
  intros (sx & Kx) Hk Hs. induction Hs as [|y l Hs IH Hd]; simpl.
  - repeat constructor.
  - inversion Hk as [|? ? (sy & Ky) Hk']; subst.
    destruct (py_lt (key y) (key x)) eqn:E.
    + constructor; [now apply IH|].
      apply HdRel_insert; [|assumption].
      unfold not_below. rewrite Kx, Ky, py_lt_str in *. now apply ltb_asym.
    + repeat constructor; assumption.
Qed.

(** The tuples are written in the order of their names. *)
Lemma sort_by_key_sorted {A : Type} (key : A -> pyval) (l : list A) :
  Forall (str_keyed key) l -> Sorted (not_below key) (sort_by_key key l).
Proof.
  unfold sort_by_key. induction 1 as [|x l Hx Hl IH]; simpl; [constructor|].
  apply insert_by_key_sorted; [assumption| |assumption].
  eapply Permutation_Forall; [|exact Hl]. symmetry. apply sort_by_key_perm.
Qed.

Lemma sorted_strictly {A : Type} (key : A -> pyval) (l : list A) :
  Forall (str_keyed key) l -> NoDup (map key l) ->
  Sorted (not_below key) l -> Sorted (strictly_below key) l.
Proof.
  intros Hk Hn Hs. induction Hs as [|x l Hs IH Hd]; [constructor|].
  inversion Hk as [|? ? (sx & Kx) Hk']; subst.
  inversion Hn as [|? ? Nx Hn']; subst.
  constructor; [now apply IH|].
  destruct l as [|y l]; constructor.
  inversion Hd as [|? ? Hxy]; subst.
  inversion Hk' as [|? ? (sy & Ky) _]; subst.
  unfold not_below, strictly_below in *. rewrite Kx, Ky, py_lt_str in *. simpl.
  rewrite ltb_irrefl_pair; [now rewrite Hxy|].
  intros ->. apply Nx. simpl. left. congruence.
Qed.

Lemma Sorted_map {A B : Type} (R : A -> A -> Prop) (S : B -> B -> Prop)
  (f : A -> B) (l : list A) :
  (forall a b, R a b -> S (f a) (f b)) ->
  Sorted R l -> Sorted S (map f l).
Proof.
  intros H. induction 1 as [|x l Hs IH Hd]; simpl; constructor; [assumption|].
  destruct Hd; simpl; constructor. now apply H.
Qed.

Lemma stream_written {A : Type} (g0 g1 : A -> pyval) (l : list A) :
  Forall (str_keyed g0) l ->
  stream g0 g1 l = written (map (pair_of g0 g1) l).
Proof.
  induction 1 as [|t l (s & K) Hl IH]; simpl; [reflexivity|].
  unfold piece. rewrite IH, K, py_str_str. simpl. now rewrite append_assoc.
Qed.

Lemma pairs_of_tuples {A : Type} (f : pyval -> result A) (g0 g1 : A -> pyval)
  (l : list pyval) (ns : list string) (ys : list A) :
  (forall x t, f x = Ret t ->
               getitem x "name" = Ret (g0 t) /\ getitem x "type" = Ret (g1 t)) ->
  str_names l = Some ns ->
  mapM f l = Ret ys ->
  map entry_pair l = map (fun t => Some (pair_of g0 g1 t)) ys.
Proof.
  intros Hf. revert ns ys; induction l as [|x l IH]; intros ns ys Hn H; simpl in *.
  - now injection H as <-.
  - destruct (str_name x) as [s|] eqn:Sx; [|discriminate].
    destruct (str_names l) as [ns'|]; [|discriminate].
    destruct (f x) as [t|] eqn:Fx; simpl in H; [|discriminate].
    destruct (mapM f l) as [ts|]; simpl in H; [|discriminate]. injection H as <-.
    simpl. rewrite (IH ns' ts eq_refl eq_refl). f_equal.
    destruct (Hf x t Fx) as (Gn & Gt).
    unfold entry_pair, pair_of. rewrite Gn, Gt.
    destruct x as [|b|z|z n|u|m|d]; try discriminate.
    simpl in Sx, Gn.
    destruct (dict_get "name" d) as [[|b|z|z n|u|m|d']|]; try discriminate.
    injection Gn as <-. reflexivity.
Qed.

Lemma collection_written {A : Type} (f : pyval -> result A)
  (g0 g1 : A -> pyval) (l : list pyval) (st : string) :
  (forall x t, f x = Ret t ->
               getitem x "name" = Ret (g0 t) /\ getitem x "type" = Ret (g1 t)) ->
  distinct_names l = true ->
  collection_stream f g0 g1 l = Ret st ->
  exists ps,
    st = written ps
    /\ Permutation (map Some ps) (map entry_pair l)
    /\ Sorted (fun a b => String.ltb a b = true) (map fst ps).
Proof.
  intros Hf Hd. unfold collection_stream, distinct_names in *.
  destruct (str_names l) as [ns|] eqn:N; [|discriminate].
  destruct (mapM f l) as [ys|] eqn:M; simpl; [|discriminate].
  intros [= <-].
  pose proof (tuples_keys f g0 l ns ys (fun x t H => proj1 (Hf x t H)) N M) as K.
  assert (Hk : Forall (str_keyed g0) ys).
  { apply Forall_forall. intros t Ht.
    apply (in_map g0) in Ht. rewrite K in Ht. apply in_map_iff in Ht.
    destruct Ht as (s & E & _). now exists s. }
  assert (Hn : NoDup (map g0 ys)).
  { rewrite K. apply NoDup_map_inj; [|now apply nodupb_NoDup].
    intros a b [= E]. exact E. }
  pose proof (sort_by_key_perm g0 ys) as P.
  assert (Hk' : Forall (str_keyed g0) (sort_by_key g0 ys))
    by (eapply Permutation_Forall; [symmetry; exact P|exact Hk]).
  exists (map (pair_of g0 g1) (sort_by_key g0 ys)). split; [|split].
  - now apply stream_written.
  - rewrite (pairs_of_tuples f g0 g1 l ns ys Hf N M), map_map.
    now apply Permutation_map.
  - rewrite map_map. simpl.
    apply (Sorted_map (strictly_below g0)); [auto|].
    apply sorted_strictly; [assumption| |now apply sort_by_key_sorted].
    eapply Permutation_NoDup; [|exact Hn].
    apply Permutation_map. now symmetry.
Qed.

Lemma hash_gen_entry_fields (x : pyval) (t : pyval * pyval) :
  hash_gen_entry x = Ret t ->
  getitem x "name" = Ret (fst t) /\ getitem x "type" = Ret (snd t).
Proof.
  unfold hash_gen_entry. destruct (getitem x "name") as [n|]; simpl; [|discriminate].
  destruct (getitem x "type"); simpl; [|discriminate]. now intros [= <-].
Qed.

Lemma hash_port_entry_fields (x : pyval) (t : pyval * pyval * nat) :
  hash_port_entry x = Ret t ->
  getitem x "name" = Ret (fst (fst t)) /\ getitem x "type" = Ret (snd (fst t)).
Proof.
  unfold hash_port_entry. destruct (getitem x "name") as [n|]; simpl; [|discriminate].
  destruct (getitem x "type"); simpl; [|discriminate].
  destruct (getitem x "signal_list") as [sl|]; simpl; [|discriminate].
  destruct (py_len sl); simpl; [|discriminate]. now intros [= <-].
Qed.

Lemma hash_ext_entry_fields (x : pyval) (t : pyval * pyval * pyval) :
  hash_ext_entry x = Ret t ->
  getitem x "name" = Ret (fst (fst t)) /\ getitem x "type" = Ret (snd (fst t)).
Proof.
  unfold hash_ext_entry. destruct (getitem x "name") as [n|]; simpl; [|discriminate].
  destruct (getitem x "type"); simpl; [|discriminate].
  destruct (getitem x "direction"); simpl; [|discriminate]. now intros [= <-].
Qed.

(** The format of the hash.  When the names of each collection are
    distinct strings, the string returned is made of the generics, then
    the ports, then the external signals; within each part the entries
    come in increasing order of name, each as its name followed by the
    string form of its type; nothing else is written (no separator, no
    signal count, no direction). *)
Theorem model_hash_format :
  forall (self : noc_codegen_base) (h : string),
    names_ok self = true ->
    snd (model_hash self) = Ret h ->
    exists gs ps es,
      h = (written gs ++ written ps ++ written es)%string
      /\ Permutation (map Some gs) (map entry_pair (generics self))
      /\ Permutation (map Some ps) (map entry_pair (ports self))
      /\ Permutation (map Some es) (map entry_pair (external_signals self))
      /\ Sorted (fun a b => String.ltb a b = true) (map fst gs)
      /\ Sorted (fun a b => String.ltb a b = true) (map fst ps)
      /\ Sorted (fun a b => String.ltb a b = true) (map fst es).
Proof.
  intros self h Hn Hh. rewrite model_hash_result in Hh.
  destruct (streams_of_hash _ _ Hh) as (sg & sp & se & G & P & E & ->).
  unfold names_ok in Hn. apply andb_prop in Hn as [Hn He].
  apply andb_prop in Hn as [Hg Hp].
  destruct (collection_written _ _ _ _ _ hash_gen_entry_fields Hg G)
    as (gs & -> & Pg & Sg).
  destruct (collection_written _ _ _ _ _ hash_port_entry_fields Hp P)
    as (ps & -> & Pp & Sp).
  destruct (collection_written _ _ _ _ _ hash_ext_entry_fields He E)
    as (es & -> & Pe & Se).
  exists gs, ps, es. auto 10.
Qed.

End Canonical.

Lemma model_hash_format_witness :
  exists gs ps es,
    "ADDR_WIDTHnaturalDATA_WIDTHintegerclk_portclockrststd_logic"
    = (written gs ++ written ps ++ written es)%string
    /\ Permutation (map Some gs) (map entry_pair (generics sample2))
    /\ Permutation (map Some ps) (map entry_pair (ports sample2))
    /\ Permutation (map Some es) (map entry_pair (external_signals sample2))
    /\ Sorted (fun a b => String.ltb a b = true) (map fst gs)
    /\ Sorted (fun a b => String.ltb a b = true) (map fst ps)
    /\ Sorted (fun a b => String.ltb a b = true) (map fst es).
Proof.
  apply (@model_hash_format cpython2 sample2); reflexivity.
Defined.
